(** * jrp-planner: the joint replenishment policy solver of [jrp_solver.py]

    A shallow embedding of [Item], [JRPInstance] and [find_optimal_policy],
    and the properties of the solver stated in the repository's
    specification.

    Python's [float] is IEEE 754 binary64.  It is modelled by the Standard
    Library's [spec_float] at precision 53 and maximal exponent 1024, whose
    operations are executable and need no axiom.  Python's exceptions are the
    [Raise] results of an error monad. *)

From Stdlib Require Import ZArith SpecFloat.
From stdpp Require Import base list sorting strings.

Local Open Scope Z_scope.

(** ** Binary64 *)

Module F64.

Definition prec : Z := 53.
Definition emax : Z := 1024.

Abbreviation float := spec_float.

Definition mul : float → float → float := SFmul prec emax.
Definition add : float → float → float := SFadd prec emax.
Definition div : float → float → float := SFdiv prec emax.
Definition sqrt : float → float := SFsqrt prec emax.
Definition ltb : float → float → bool := SFltb.
Definition leb : float → float → bool := SFleb.
Definition eqb : float → float → bool := SFeqb.

(** The float nearest to an integer, ties to even ([float(n)] short of its
    overflow check). *)
Definition of_Z (z : Z) : float := binary_normalize prec emax z 0 false.

Definition zero : float := S754_zero false.
Definition pinf : float := S754_infinity false.

Definition is_nan (x : float) : bool :=
  match x with S754_nan => true | _ => false end.
Definition is_inf (x : float) : bool :=
  match x with S754_infinity _ => true | _ => false end.
Definition is_zero (x : float) : bool :=
  match x with S754_zero _ => true | _ => false end.
(** [math.isfinite]. *)
Definition is_finite (x : float) : bool :=
  match x with S754_zero _ | S754_finite _ _ _ => true | _ => false end.

(** The decimal literal [n / 10^k], correctly rounded: both operands are
    exact for the literals used here, and [div] rounds once. *)
Definition dec (n : Z) (k : Z) : float := div (of_Z n) (of_Z (10 ^ k)).

(** Floats that are not NaN are ordered like the triples [rank]: the class
    (negative infinity, negative, zero, positive, positive infinity), then
    the exponent, then the mantissa, the last two reversed below zero. *)
Definition rank (x : float) : Z * Z * Z :=
  match x with
  | S754_infinity true => (-2, 0, 0)
  | S754_finite true m e => (-1, - e, - Zpos m)
  | S754_zero _ | S754_nan => (0, 0, 0)
  | S754_finite false m e => (1, e, Zpos m)
  | S754_infinity false => (2, 0, 0)
  end.

Definition lex_lt (p q : Z * Z * Z) : Prop :=
  p.1.1 < q.1.1 ∨
  p.1.1 = q.1.1 ∧ (p.1.2 < q.1.2 ∨ p.1.2 = q.1.2 ∧ p.2 < q.2).

Definition lex_le (p q : Z * Z * Z) : Prop :=
  p.1.1 < q.1.1 ∨
  p.1.1 = q.1.1 ∧ (p.1.2 < q.1.2 ∨ p.1.2 = q.1.2 ∧ p.2 ≤ q.2).

Definition lex_eq (p q : Z * Z * Z) : Prop :=
  p.1.1 = q.1.1 ∧ p.1.2 = q.1.2 ∧ p.2 = q.2.

End F64.

Import F64.

(** ** Python's exceptions and the builtins the solver calls *)

Inductive exn : Set :=
| IndexError
| ZeroDivisionError
| ValueError
| OverflowError
| TypeError.

Inductive result (A : Type) : Type :=
| Ok (x : A)
| Raise (e : exn).
Arguments Ok {A} x.
Arguments Raise {A} e.

#[global] Instance result_ret : MRet result := @Ok.
#[global] Instance result_bind : MBind result := λ A B f r,
  match r with
  | Ok x => f x
  | Raise e => Raise e
  end.
#[global] Instance result_fmap : FMap result := λ A B f r,
  match r with
  | Ok x => Ok (f x)
  | Raise e => Raise e
  end.

Definition raises {A} (r : result A) : Prop := ∃ e, r = Raise e.

Module Py.

(** [x / y] on floats: a zero divisor of either sign raises. *)
Definition truediv (x y : float) : result float :=
  if is_zero y then Raise ZeroDivisionError else Ok (div x y).

(** [math.sqrt]: the C square root, with a NaN result of a non-NaN
    argument reported as a domain error. *)
Definition math_sqrt (x : float) : result float :=
  let r := sqrt x in
  if is_nan r && negb (is_nan x) then Raise ValueError else Ok r.

(** The integer nearest to [n / d], ties to even, for [0 ≤ n], [0 < d]. *)
Definition round_half_even_div (n d : Z) : Z :=
  let q := n / d in
  match (2 * (n mod d)) ?= d with
  | Lt => q
  | Gt => q + 1
  | Eq => if Z.even q then q else q + 1
  end.

(** The integer nearest to [m * 2^e * scale], ties to even. *)
Definition scaled_round (m : positive) (e : Z) (scale : Z) : Z :=
  match e with
  | Zneg p => round_half_even_div (Zpos m * scale) (2 ^ Zpos p)
  | _ => Zpos m * 2 ^ e * scale
  end.

(** [round(x)]: the nearest [int], ties to even. *)
Definition round (x : float) : result Z :=
  match x with
  | S754_nan => Raise ValueError
  | S754_infinity _ => Raise OverflowError
  | S754_zero _ => Ok 0
  | S754_finite s m e => Ok (cond_Zopp s (scaled_round m e 1))
  end.

(** [round(x, ndigits)] for a small non-negative [ndigits]: the exact value
    of [x] is rounded to the nearest decimal with [ndigits] fractional
    digits (ties to even), and that decimal to the nearest float.  A NaN,
    an infinity or a zero is returned as it is. *)
Definition round_ndigits (x : float) (ndigits : Z) : result float :=
  match x with
  | S754_finite s m e =>
      let r :=
        match scaled_round m e (10 ^ ndigits) with
        | Zpos q => div (S754_finite s q 0)
                        (S754_finite false (Z.to_pos (10 ^ ndigits)) 0)
        | _ => S754_zero s
        end in
      if is_inf r then Raise OverflowError else Ok r
  | _ => Ok x
  end.

(** [float(n)], as the mixed [int]/[float] operators apply it. *)
Definition float_of_int (n : Z) : result float :=
  let r := of_Z n in
  if is_inf r then Raise OverflowError else Ok r.

(** [l[i]] for [0 ≤ i]. *)
Definition getitem {A} (l : list A) (i : nat) : result A :=
  match l !! i with
  | Some x => Ok x
  | None => Raise IndexError
  end.

(** [l[i] = x] for [0 ≤ i]. *)
Definition setitem {A} (l : list A) (i : nat) (x : A) : result (list A) :=
  if decide (i < length l)%nat then Ok (<[i:=x]> l) else Raise IndexError.

(** [sum] of floats: the additions left to right, from the integer [0], as
    the language reference defines it.  (CPython from 3.12 on carries a
    compensation term along, which can change the last bit of a sum of three
    or more floats; no proof below looks inside [sum].) *)
Definition sum (l : list float) : float := fold_left add l (of_Z 0).

(** [sorted(l, key=key)]: ascending by [<] on the keys, stable.  It is
    written as an insertion sort; any stable comparison sort returns the same
    list when [<] orders the keys, which it does for floats without a NaN
    (lemma [sorted_canonical] below). *)
Fixpoint insert_by {A} (key : A → float) (x : A) (l : list A) : list A :=
  match l with
  | [] => [x]
  | y :: l' =>
      if ltb (key y) (key x) then y :: insert_by key x l' else x :: l
  end.

Definition sorted {A} (key : A → float) (l : list A) : list A :=
  foldr (insert_by key) [] l.

(** [enumerate(l)]. *)
Definition enumerate {A} (l : list A) : list (nat * A) :=
  imap (λ i x, (i, x)) l.

(** [for i in range: s = body(s, i)], stopping at the first exception. *)
Fixpoint for_each {S I} (body : S → I → result S) (range : list I) (s : S)
  : result S :=
  match range with
  | [] => Ok s
  | i :: range' => s' ← body s i; for_each body range' s'
  end.

(** A generator expression or comprehension, evaluated left to right. *)
Fixpoint comprehension {A B} (f : A → result B) (l : list A)
  : result (list B) :=
  match l with
  | [] => Ok []
  | x :: l' => y ← f x; ys ← comprehension f l'; Ok (y :: ys)
  end.

End Py.

(** The order [sorted] leaves the keys in: [key(x) <= key(y)]. *)
Definition key_le {X} (key : X → float) (x y : X) : Prop :=
  leb (key x) (key y) = true.

(** ** The data model *)

Record Item : Type := {
  id : string;
  a : float;
  D : float;
  v : float
}.

(** The property [Item.a_over_Dv].  The quotient is formed only when
    [D * v > 0], so its divisor is never zero and the division never raises
    (lemma [a_over_Dv_division] below). *)
Definition a_over_Dv (self : Item) : float :=
  if ltb zero (mul (D self) (v self))
  then div (a self) (mul (D self) (v self))
  else pinf.

Record JRPInstance : Type := {
  instance_name : string;
  A : float;
  r : float;
  items : list Item
}.

(** One entry of [item_results]: the dictionary built for a ranked item, its
    six keys in the order they are written. *)
Record Row : Type := {
  ID : string;
  Multiplier : Z;
  Individual_Cycle : float;
  Setup_Cost : float;
  Holding_Cost : float;
  Total_Item_Cost : float
}.

(** ** The solver *)

Section Solver.

Variable instance : JRPInstance.

(** [sorted(instance.items, key=lambda x: x.a_over_Dv)]. *)
Definition sorted_items : list Item :=
  Py.sorted a_over_Dv (items instance).

(** The body of the loop [for i in range(1, len(sorted_items))]. *)
Definition multiplier_body (D1_v1 : float) (m_values : list Z) (i : nat)
  : result (list Z) :=
  item_i ← Py.getitem sorted_items i;
  item_0 ← Py.getitem sorted_items 0;
  q ← Py.truediv D1_v1 (add (A instance) (a item_0));
  let ratio := mul (a_over_Dv item_i) q in
  root ← Py.math_sqrt ratio;
  k ← Py.round root;
  Py.setitem m_values i (Z.max 1 k).

(** "Calculate m_i": [m_values], [D1_v1] and the loop over the ranks
    from 1. *)
Definition calculate_m : result (list Z) :=
  let m_values := replicate (length sorted_items) 1 in
  item_0 ← Py.getitem sorted_items 0;
  let D1_v1 := mul (D item_0) (v item_0) in
  Py.for_each (multiplier_body D1_v1)
    (seq 1 (length sorted_items - 1)) m_values.

(** The terms of the two generator expressions summed for [T_star]. *)
Definition num_term (m_values : list Z) (e : nat * Item) : result float :=
  m ← Py.getitem m_values e.1;
  fm ← Py.float_of_int m;
  Py.truediv (a e.2) fm.

Definition den_term (m_values : list Z) (e : nat * Item) : result float :=
  m ← Py.getitem m_values e.1;
  fm ← Py.float_of_int m;
  Ok (mul (mul fm (D e.2)) (v e.2)).

(** "Calculate T*": [num], [den] and their quotient, before the square
    root. *)
Definition calculate_num (m_values : list Z) : result float :=
  num_terms ← Py.comprehension (num_term m_values)
                (Py.enumerate sorted_items);
  Ok (mul (of_Z 2) (add (A instance) (Py.sum num_terms))).

Definition calculate_den (m_values : list Z) : result float :=
  den_terms ← Py.comprehension (den_term m_values)
                (Py.enumerate sorted_items);
  Ok (mul (r instance) (Py.sum den_terms)).

Definition calculate_T_star (m_values : list Z) : result float :=
  num ← calculate_num m_values;
  den ← calculate_den m_values;
  q ← Py.truediv num den;
  Py.math_sqrt q.

(** The body of the loop that fills [item_results]. *)
Definition result_body (m_values : list Z) (T_star : float)
    (item_results : list Row) (e : nat * Item) : result (list Row) :=
  m ← Py.getitem m_values e.1;
  fm ← Py.float_of_int m;
  let ti := mul fm T_star in
  h_cost ← Py.truediv (mul (mul (mul (D e.2) ti) (v e.2)) (r instance))
                      (of_Z 2);
  s_cost ← Py.truediv (a e.2) ti;
  ti5 ← Py.round_ndigits ti 5;
  s2 ← Py.round_ndigits s_cost 2;
  h2 ← Py.round_ndigits h_cost 2;
  t2 ← Py.round_ndigits (add s_cost h_cost) 2;
  Ok (item_results ++
        [{| ID := id e.2; Multiplier := m; Individual_Cycle := ti5;
            Setup_Cost := s2; Holding_Cost := h2; Total_Item_Cost := t2 |}]).

Definition find_optimal_policy : result (float * float * list Row) :=
  m_values ← calculate_m;
  T_star ← calculate_T_star m_values;
  item_results ← Py.for_each (result_body m_values T_star)
                   (Py.enumerate sorted_items) [];
  major ← Py.truediv (A instance) T_star;
  let total_system_cost :=
    add major (Py.sum (Total_Item_Cost <$> item_results)) in
  Ok (T_star, total_system_cost, item_results).

End Solver.

(** ** The formulas of the specification *)

Section Formulas.

Variable instance : JRPInstance.

(** The multiplier of rank [i] as the solver forms it: [1] at rank 0, and
    [max(1, round(sqrt(a_over_Dv[i] * (D1v1 / (A + a[0])))))] from rank 1,
    the quotient being rounded to a float before the product. *)
Definition multiplier_formula (i : nat) : result Z :=
  match i with
  | O => Ok 1
  | _ =>
      item_i ← Py.getitem (sorted_items instance) i;
      item_0 ← Py.getitem (sorted_items instance) 0;
      q ← Py.truediv (mul (D item_0) (v item_0))
                     (add (A instance) (a item_0));
      root ← Py.math_sqrt (mul (a_over_Dv item_i) q);
      k ← Py.round root;
      Ok (Z.max 1 k)
  end.

(** The same with the expression grouped as it is written in the
    specification, [a_over_Dv[i] * D1v1 / (A + a[0])], that is, the product
    first and the quotient second. *)
Definition multiplier_as_written (i : nat) : result Z :=
  match i with
  | O => Ok 1
  | _ =>
      item_i ← Py.getitem (sorted_items instance) i;
      item_0 ← Py.getitem (sorted_items instance) 0;
      ratio ← Py.truediv
                (mul (a_over_Dv item_i) (mul (D item_0) (v item_0)))
                (add (A instance) (a item_0));
      root ← Py.math_sqrt ratio;
      k ← Py.round root;
      Ok (Z.max 1 k)
  end.

(** [sqrt(2 * (A + Σ a[i]/m[i]) / (r * Σ m[i]*D[i]*v[i]))] over the ranked
    items [ranked] and their multipliers [ms]. *)
Definition T_star_formula (ranked : list Item) (ms : list Z)
  : result float :=
  setups ← Py.comprehension
             (λ e : Item * Z, fm ← Py.float_of_int e.2;
                              Py.truediv (a e.1) fm)
             (zip ranked ms);
  rates ← Py.comprehension
            (λ e : Item * Z, fm ← Py.float_of_int e.2;
                             Ok (mul (mul fm (D e.1)) (v e.1)))
            (zip ranked ms);
  q ← Py.truediv (mul (of_Z 2) (add (A instance) (Py.sum setups)))
                 (mul (r instance) (Py.sum rates));
  Py.math_sqrt q.

(** The record of one ranked item, given the base cycle and the item's
    multiplier: [Ti = m * T_star] and the two costs are computed
    unrounded, and rounded only when they are stored. *)
Definition policy_result (T_star : float) (item : Item) (m : Z) (row : Row)
  : Prop :=
  ∃ fm h_cost s_cost : float,
    let ti := mul fm T_star in
    Py.float_of_int m = Ok fm ∧
    Py.truediv (mul (mul (mul (D item) ti) (v item)) (r instance)) (of_Z 2)
      = Ok h_cost ∧
    Py.truediv (a item) ti = Ok s_cost ∧
    ID row = id item ∧
    Multiplier row = m ∧
    Py.round_ndigits ti 5 = Ok (Individual_Cycle row) ∧
    Py.round_ndigits s_cost 2 = Ok (Setup_Cost row) ∧
    Py.round_ndigits h_cost 2 = Ok (Holding_Cost row) ∧
    Py.round_ndigits (add s_cost h_cost) 2 = Ok (Total_Item_Cost row).

(** The total there would be if the unrounded item costs were summed; the
    solver sums the rounded ones. *)
Definition unrounded_total (T_star : float) (ranked : list Item)
    (ms : list Z) : result float :=
  costs ← Py.comprehension
            (λ e : Item * Z,
               fm ← Py.float_of_int e.2;
               let ti := mul fm T_star in
               h_cost ← Py.truediv
                          (mul (mul (mul (D e.1) ti) (v e.1)) (r instance))
                          (of_Z 2);
               s_cost ← Py.truediv (a e.1) ti;
               Ok (add s_cost h_cost))
            (zip ranked ms);
  major ← Py.truediv (A instance) T_star;
  Ok (add major (Py.sum costs)).

End Formulas.

(** ** The solver on the heap

    The same function once more, with Python's objects in a store: the
    instance, its [items] list and the items are objects that the caller
    owns; [sorted_items], [m_values], [item_results] and the dictionaries are
    allocated by the call.  Lists hold references, so [sorted_items] and
    [instance.items] share the item objects. *)

Module Heap.

Abbreviation loc := nat.

Inductive value : Type :=
| VInt (n : Z)
| VRef (l : loc).

Inductive object : Type :=
| OItem (self : Item)
| OInstance (instance_name : string) (A r : float) (items : loc)
| OList (elems : list value)
| ODict (row : Row).

Abbreviation heap := (list object).

(** Computations that read and write the heap and may raise; the heap
    survives an exception. *)
Definition St (X : Type) : Type := heap → result X * heap.

#[global] Instance St_ret : MRet St := λ X x h, (Ok x, h).
#[global] Instance St_bind : MBind St := λ X Y f c h,
  match c h with
  | (Ok x, h') => f x h'
  | (Raise e, h') => (Raise e, h')
  end.

Definition lift {X} (p : result X) : St X := λ h, (p, h).

Definition new (o : object) : St loc := λ h, (Ok (length h), h ++ [o]).

(** Reading the object at a location.  A reference always leads to an
    object in Python; a heap in which it does not, or in which it leads to an
    object of another type, is ill-formed, and its use is reported as a
    [TypeError]. *)
Definition load (l : loc) : St object := λ h,
  match h !! l with
  | Some o => (Ok o, h)
  | None => (Raise TypeError, h)
  end.

Definition store (l : loc) (o : object) : St unit := λ h,
  (Ok (), <[l:=o]> h).

Definition load_item (x : value) : St Item :=
  match x with
  | VRef l =>
      o ← load l;
      match o with OItem self => mret self | _ => lift (Raise TypeError) end
  | VInt _ => lift (Raise TypeError)
  end.

Definition load_dict (x : value) : St Row :=
  match x with
  | VRef l =>
      o ← load l;
      match o with ODict row => mret row | _ => lift (Raise TypeError) end
  | VInt _ => lift (Raise TypeError)
  end.

Definition load_list (l : loc) : St (list value) :=
  o ← load l;
  match o with OList elems => mret elems | _ => lift (Raise TypeError) end.

Definition as_int (x : value) : St Z :=
  match x with
  | VInt n => mret n
  | VRef _ => lift (Raise TypeError)
  end.

(** The attributes of the instance object. *)
Definition attr_A (instance : loc) : St float :=
  o ← load instance;
  match o with OInstance _ A _ _ => mret A | _ => lift (Raise TypeError) end.

Definition attr_r (instance : loc) : St float :=
  o ← load instance;
  match o with OInstance _ _ r _ => mret r | _ => lift (Raise TypeError) end.

Definition attr_items (instance : loc) : St loc :=
  o ← load instance;
  match o with
  | OInstance _ _ _ items => mret items
  | _ => lift (Raise TypeError)
  end.

(** [l[i]], [l[i] = x], [l.append(x)] and [len(l)] on a list object. *)
Definition list_getitem (l : loc) (i : nat) : St value :=
  elems ← load_list l; lift (Py.getitem elems i).

Definition list_setitem (l : loc) (i : nat) (x : value) : St unit :=
  elems ← load_list l;
  elems' ← lift (Py.setitem elems i x);
  store l (OList elems').

Definition list_append (l : loc) (x : value) : St unit :=
  elems ← load_list l; store l (OList (elems ++ [x])).

Definition len (l : loc) : St nat :=
  elems ← load_list l; mret (length elems).

Fixpoint for_each {I} (body : I → St unit) (range : list I) : St unit :=
  match range with
  | [] => mret ()
  | i :: range' => body i;; for_each body range'
  end.

Fixpoint comprehension {X Y} (f : X → St Y) (l : list X) : St (list Y) :=
  match l with
  | [] => mret []
  | x :: l' => y ← f x; ys ← comprehension f l'; mret (y :: ys)
  end.

(** [sorted(l, key=key)]: the keys are computed once, element by element,
    and the references are returned in a new list. *)
Definition sorted (key : value → St float) (l : loc) : St loc :=
  elems ← load_list l;
  keys ← comprehension key elems;
  new (OList (Py.sorted fst (zip keys elems)).*2).

Section HeapSolver.

Variable instance : loc.

Definition key (x : value) : St float :=
  self ← load_item x; mret (a_over_Dv self).

Definition multiplier_body (sorted_items m_values : loc) (D1_v1 : float)
    (i : nat) : St unit :=
  x_i ← list_getitem sorted_items i;
  item_i ← load_item x_i;
  A ← attr_A instance;
  x_0 ← list_getitem sorted_items 0;
  item_0 ← load_item x_0;
  q ← lift (Py.truediv D1_v1 (add A (a item_0)));
  let ratio := mul (a_over_Dv item_i) q in
  root ← lift (Py.math_sqrt ratio);
  k ← lift (Py.round root);
  list_setitem m_values i (VInt (Z.max 1 k)).

Definition num_term (m_values : loc) (e : nat * value) : St float :=
  item ← load_item e.2;
  x ← list_getitem m_values e.1;
  m ← as_int x;
  fm ← lift (Py.float_of_int m);
  lift (Py.truediv (a item) fm).

Definition den_term (m_values : loc) (e : nat * value) : St float :=
  x ← list_getitem m_values e.1;
  item ← load_item e.2;
  m ← as_int x;
  fm ← lift (Py.float_of_int m);
  mret (mul (mul fm (D item)) (v item)).

Definition result_body (m_values item_results : loc) (T_star : float)
    (e : nat * value) : St unit :=
  x ← list_getitem m_values e.1;
  m ← as_int x;
  fm ← lift (Py.float_of_int m);
  let ti := mul fm T_star in
  item ← load_item e.2;
  r ← attr_r instance;
  h_cost ← lift (Py.truediv (mul (mul (mul (D item) ti) (v item)) r)
                            (of_Z 2));
  s_cost ← lift (Py.truediv (a item) ti);
  ti5 ← lift (Py.round_ndigits ti 5);
  s2 ← lift (Py.round_ndigits s_cost 2);
  h2 ← lift (Py.round_ndigits h_cost 2);
  t2 ← lift (Py.round_ndigits (add s_cost h_cost) 2);
  d ← new (ODict {| ID := id item; Multiplier := m;
                    Individual_Cycle := ti5; Setup_Cost := s2;
                    Holding_Cost := h2; Total_Item_Cost := t2 |});
  list_append item_results (VRef d).

Definition find_optimal_policy : St (float * float * loc) :=
  items ← attr_items instance;
  sorted_items ← sorted key items;
  n ← len sorted_items;
  m_values ← new (OList (replicate n (VInt 1)));
  x_0 ← list_getitem sorted_items 0;
  item_0 ← load_item x_0;
  let D1_v1 := mul (D item_0) (v item_0) in
  n ← len sorted_items;
  for_each (multiplier_body sorted_items m_values D1_v1)
    (seq 1 (n - 1));;
  A ← attr_A instance;
  ranked ← load_list sorted_items;
  num_terms ← comprehension (num_term m_values) (Py.enumerate ranked);
  let num := mul (of_Z 2) (add A (Py.sum num_terms)) in
  r ← attr_r instance;
  den_terms ← comprehension (den_term m_values) (Py.enumerate ranked);
  let den := mul r (Py.sum den_terms) in
  q ← lift (Py.truediv num den);
  T_star ← lift (Py.math_sqrt q);
  item_results ← new (OList []);
  for_each (result_body m_values item_results T_star)
    (Py.enumerate ranked);;
  A ← attr_A instance;
  major ← lift (Py.truediv A T_star);
  res ← load_list item_results;
  totals ← comprehension (λ x, row ← load_dict x;
                               mret (Total_Item_Cost row)) res;
  mret (T_star, add major (Py.sum totals), item_results).

End HeapSolver.

(** The rows behind a returned [item_results] reference. *)
Definition read_rows (h : heap) (l : loc) : option (list Row) :=
  match h !! l with
  | Some (OList elems) =>
      mapM (λ x, match x with
                 | VRef d => match h !! d with
                             | Some (ODict row) => Some row
                             | _ => None
                             end
                 | VInt _ => None
                 end) elems
  | _ => None
  end.

(** What the caller sees of a call: the exception, or the two numbers and
    the rows. *)
Definition outcome (run : result (float * float * loc) * heap)
  : option (result (float * float * list Row)) :=
  match run.1 with
  | Ok (T_star, total, l) =>
      rows ← read_rows run.2 l; Some (Ok (T_star, total, rows))
  | Raise e => Some (Raise e)
  end.

(** The heap [h] holds the instance [instance] at [l]: the instance object,
    its list of references, and one item object per reference. *)
Definition represents (h : heap) (l : loc) (instance : JRPInstance) : Prop :=
  ∃ (items_loc : loc) (refs : list loc),
    h !! l = Some (OInstance (instance_name instance) (A instance)
                     (r instance) items_loc) ∧
    h !! items_loc = Some (OList (VRef <$> refs)) ∧
    Forall2 (λ ref self, h !! ref = Some (OItem self))
      refs (items instance).

(** [c] leaves the heap [h] as it is and has the result [p]. *)
Definition reads {X} (c : St X) (h : heap) (p : result X) : Prop :=
  c h = (p, h).

End Heap.

(** The heap during a call on a caller's heap [h0] whose items, each with
    its reference, are [bound]. *)

Module Layout.

Import Heap.

Section Call.

Variables (h0 : heap) (bound : list (loc * Item)).

(** The items in ranked order, each with its reference. *)
Definition ranked : list (loc * Item) :=
  Py.sorted (a_over_Dv ∘ snd) bound.

Definition ranked_refs : list value := (λ p, VRef p.1) <$> ranked.

(** The heap during the call: the caller's objects, then [sorted_items]
    and [m_values], then what is allocated later. *)
Definition layout (ms : list Z) (tail : heap) : heap :=
  h0 ++ OList ranked_refs :: OList (VInt <$> ms) :: tail.

(** [enumerate(sorted_items)] on the heap and in the pure run. *)
Definition same_rank (e : nat * value) (e' : nat * Item) : Prop :=
  ∃ p, Py.getitem ranked e.1 = Ok p ∧ e = (e.1, VRef p.1) ∧
       e' = (e.1, p.2).

(** The heap while [item_results] is filled: the list of references
    and, after it, one dictionary per row. *)
Definition row_refs (rows : list Row) : list value :=
  VRef <$> seq (length h0 + 3) (length rows).

Definition results_layout (ms : list Z) (rows : list Row) : heap :=
  layout ms (OList (row_refs rows) :: (ODict <$> rows)).

End Call.

End Layout.

(** ** Signs *)

(** Not below zero: a NaN, a zero of either sign, a positive number or
    [+inf]. *)
Definition not_negative (x : float) : bool :=
  match x with
  | S754_finite true _ _ | S754_infinity true => false
  | _ => true
  end.

(** ** Values without static types

    What [json.load] returns, and what the dictionaries of [item_results]
    hold: [None], [bool], [int], [float], [str], [list] and [dict] with
    string keys.  A [dict] is the list of its entries in insertion order. *)

Module Dyn.

#[warnings="-register-all"] Inductive value : Type :=
| NoneV
| Bool (b : bool)
| Int (n : Z)
| Float (x : float)
| Str (s : string)
| List (elems : list value)
| Dict (fields : list (string * value)).

Inductive error : Type :=
| KeyError (key : value)
| IndexError
| TypeError
| AttributeError.

Inductive res (X : Type) : Type :=
| Done (x : X)
| Fail (e : error).
Arguments Done {X} x.
Arguments Fail {X} e.

#[global] Instance res_ret : MRet res := @Done.
#[global] Instance res_bind : MBind res := λ X Y f m,
  match m with
  | Done x => f x
  | Fail e => Fail e
  end.

(** The entry of a [dict] under a key. *)
Fixpoint dict_lookup (fields : list (string * value)) (key : string)
  : option value :=
  match fields with
  | [] => None
  | (k, x) :: fields' =>
      if decide (k = key) then Some x else dict_lookup fields' key
  end.

(** The characters of a [str], each a [str] of length one. *)
Fixpoint chars (s : string) : list value :=
  match s with
  | EmptyString => []
  | String c s' => Str (String c EmptyString) :: chars s'
  end.

(** [x[key]] for a string [key]: only a [dict] can be subscripted by a
    string. *)
Definition getitem_str (x : value) (key : string) : res value :=
  match x with
  | Dict fields =>
      match dict_lookup fields key with
      | Some y => Done y
      | None => Fail (KeyError (Str key))
      end
  | _ => Fail TypeError
  end.

(** [x.get(key, fallback)], a method of [dict]. *)
Definition get (x : value) (key : string) (fallback : value) : res value :=
  match x with
  | Dict fields => Done (default fallback (dict_lookup fields key))
  | _ => Fail AttributeError
  end.

(** The elements that [for _ in x] visits: the elements of a [list], the
    keys of a [dict], the characters of a [str]. *)
Definition iter (x : value) : res (list value) :=
  match x with
  | List elems => Done elems
  | Dict fields => Done (Str <$> fields.*1)
  | Str s => Done (chars s)
  | _ => Fail TypeError
  end.

(** A comprehension, evaluated left to right. *)
Fixpoint comprehension {X Y} (f : X → res Y) (l : list X) : res (list Y) :=
  match l with
  | [] => Done []
  | x :: l' => y ← f x; ys ← comprehension f l'; Done (y :: ys)
  end.

End Dyn.

(** ** The page: [app.py]

    The dataclasses as the page fills them from the uploaded file, with
    whatever values the file holds: a dataclass checks no type. *)

Module App.

Record Item : Type := {
  id : Dyn.value;
  a : Dyn.value;
  D : Dyn.value;
  v : Dyn.value
}.

Record JRPInstance : Type := {
  instance_name : Dyn.value;
  A : Dyn.value;
  r : Dyn.value;
  items : list Item
}.

(** [Item(i['id'], i['a'], i['D'], i['v'])]. *)
Definition make_item (i : Dyn.value) : Dyn.res Item :=
  id ← Dyn.getitem_str i "id";
  a ← Dyn.getitem_str i "a";
  D ← Dyn.getitem_str i "D";
  v ← Dyn.getitem_str i "v";
  Dyn.Done {| id := id; a := a; D := D; v := v |}.

(** The instance built from the uploaded [data]: the list
    [[Item(...) for i in data['items']]], then
    [JRPInstance(data.get('instance_name', 'Inventory_Batch'), data['A'],
    data['r'], items)]. *)
Definition build_instance (data : Dyn.value) : Dyn.res JRPInstance :=
  seq ← Dyn.getitem_str data "items";
  elems ← Dyn.iter seq;
  items ← Dyn.comprehension make_item elems;
  name ← Dyn.get data "instance_name" (Dyn.Str "Inventory_Batch");
  A ← Dyn.getitem_str data "A";
  r ← Dyn.getitem_str data "r";
  Dyn.Done {| instance_name := name; A := A; r := r; items := items |}.

End App.

(** The instance as the solver's model has it, when the name and the ids
    are strings and the numbers are floats.  ([int] fields are left out:
    Python multiplies and adds them exactly, not as floats.) *)
Definition as_float (x : Dyn.value) : option float :=
  match x with Dyn.Float y => Some y | _ => None end.

Definition as_str (x : Dyn.value) : option string :=
  match x with Dyn.Str s => Some s | _ => None end.

Definition typed_item (i : App.Item) : option Item :=
  id ← as_str (App.id i);
  a ← as_float (App.a i);
  D ← as_float (App.D i);
  v ← as_float (App.v i);
  Some {| id := id; a := a; D := D; v := v |}.

Definition typed_instance (instance : App.JRPInstance) : option JRPInstance :=
  name ← as_str (App.instance_name instance);
  A ← as_float (App.A instance);
  r ← as_float (App.r instance);
  items ← mapM typed_item (App.items instance);
  Some {| instance_name := name; A := A; r := r; items := items |}.

(** The uploaded [data] describes the instance [instance]: an object with
    the entries [A], [r] and [items], a list of objects with the entries
    [id], [a], [D] and [v]; the entry [instance_name] may be missing, and
    other entries may be there. *)
Definition describes_item (e : Dyn.value) (self : Item) : Prop :=
  ∃ fields,
    e = Dyn.Dict fields ∧
    Dyn.dict_lookup fields "id" = Some (Dyn.Str (id self)) ∧
    Dyn.dict_lookup fields "a" = Some (Dyn.Float (a self)) ∧
    Dyn.dict_lookup fields "D" = Some (Dyn.Float (D self)) ∧
    Dyn.dict_lookup fields "v" = Some (Dyn.Float (v self)).

Definition describes (data : Dyn.value) (instance : JRPInstance) : Prop :=
  ∃ fields elems,
    data = Dyn.Dict fields ∧
    Dyn.dict_lookup fields "items" = Some (Dyn.List elems) ∧
    Forall2 describes_item elems (items instance) ∧
    Dyn.dict_lookup fields "A" = Some (Dyn.Float (A instance)) ∧
    Dyn.dict_lookup fields "r" = Some (Dyn.Float (r instance)) ∧
    default (Dyn.Str "Inventory_Batch")
      (Dyn.dict_lookup fields "instance_name")
    = Dyn.Str (instance_name instance).

(** ** The data of the chart: [generate_visuals] *)

Module Chart.

(** The dictionary appended to [item_results] for a row. *)
Definition row_dict (row : Row) : Dyn.value :=
  Dyn.Dict [("ID", Dyn.Str (ID row));
            ("Multiplier (m)", Dyn.Int (Multiplier row));
            ("Individual Cycle (Ti)", Dyn.Float (Individual_Cycle row));
            ("Setup Cost ($)", Dyn.Float (Setup_Cost row));
            ("Holding Cost ($)", Dyn.Float (Holding_Cost row));
            ("Total Item Cost ($)", Dyn.Float (Total_Item_Cost row))].

(** The three lists that [generate_visuals] reads from [item_results]
    in its first three statements, before anything is drawn: the labels of
    the bars, the heights of the lower bars and the heights of the bars
    stacked on them. *)
Record series : Type := {
  ids : list Dyn.value;
  setups : list Dyn.value;
  holdings : list Dyn.value
}.

(** The first three statements of [generate_visuals]: three list
    comprehensions over [item_results], one after the other.  What follows
    them, the calls into matplotlib and the colours taken from [palette], is
    not modelled. *)
Definition read_series (item_results : Dyn.value) : Dyn.res series :=
  rows ← Dyn.iter item_results;
  ids ← Dyn.comprehension (λ r, Dyn.getitem_str r "ID") rows;
  rows ← Dyn.iter item_results;
  setups ← Dyn.comprehension (λ r, Dyn.getitem_str r "Setup Cost ($)") rows;
  rows ← Dyn.iter item_results;
  holdings ← Dyn.comprehension
               (λ r, Dyn.getitem_str r "Holding Cost ($)") rows;
  Dyn.Done {| ids := ids; setups := setups; holdings := holdings |}.

End Chart.

(** ** Instances used below *)

(** The single-item scenario of the specification. *)
Definition single_item_instance : JRPInstance :=
  {| instance_name := "single"; A := of_Z 100; r := dec 2 1;
     items := [{| id := "X"; a := of_Z 50; D := of_Z 1000; v := of_Z 10 |}] |}.

(** Two items; for the second the exact ratio is 12.25, whose square root
    3.5 is a rounding tie. *)
Definition tie_instance : JRPInstance :=
  {| instance_name := "tie"; A := of_Z 48; r := dec 2 1;
     items := [{| id := "Y"; a := of_Z 2401; D := of_Z 4; v := of_Z 1 |};
               {| id := "X"; a := of_Z 1; D := of_Z 1; v := of_Z 1 |}] |}.

(** The two-item scenario of the specification: item B has no demand. *)
Definition zero_demand_instance : JRPInstance :=
  {| instance_name := "zero demand"; A := of_Z 100; r := dec 2 1;
     items := [{| id := "X"; a := of_Z 50; D := of_Z 1000; v := of_Z 10 |};
               {| id := "B"; a := of_Z 5; D := of_Z 0; v := of_Z 10 |}] |}.

(** An item without demand first, then two items with equal keys. *)
Definition ranking_instance : JRPInstance :=
  {| instance_name := "ranking"; A := of_Z 100; r := dec 2 1;
     items := [{| id := "B"; a := of_Z 5; D := of_Z 0; v := of_Z 10 |};
               {| id := "X"; a := of_Z 50; D := of_Z 1000; v := of_Z 10 |};
               {| id := "Y"; a := of_Z 5; D := of_Z 100; v := of_Z 10 |}] |}.

Definition empty_instance : JRPInstance :=
  {| instance_name := "empty"; A := of_Z 100; r := dec 2 1; items := [] |}.

(** Malformed instances: [A + a[0] == 0], [r == 0] and [r < 0]. *)
Definition zero_setup_instance : JRPInstance :=
  {| instance_name := "zero setup"; A := of_Z 0; r := dec 2 1;
     items := [{| id := "X"; a := of_Z 0; D := of_Z 1; v := of_Z 1 |};
               {| id := "Y"; a := of_Z 1; D := of_Z 1; v := of_Z 1 |}] |}.

Definition zero_rate_instance : JRPInstance :=
  {| instance_name := "zero rate"; A := of_Z 100; r := of_Z 0;
     items := [{| id := "X"; a := of_Z 50; D := of_Z 1000; v := of_Z 10 |}] |}.

Definition negative_rate_instance : JRPInstance :=
  {| instance_name := "negative rate"; A := of_Z 100; r := dec (-2) 1;
     items := [{| id := "X"; a := of_Z 50; D := of_Z 1000; v := of_Z 10 |}] |}.

(** [tie_instance] as the caller's heap: the two items, the list and the
    instance object, which is at location 3. *)
Definition tie_heap : list Heap.object :=
  [Heap.OItem {| id := "Y"; a := of_Z 2401; D := of_Z 4; v := of_Z 1 |};
   Heap.OItem {| id := "X"; a := of_Z 1; D := of_Z 1; v := of_Z 1 |};
   Heap.OList [Heap.VRef 0%nat; Heap.VRef 1%nat];
   Heap.OInstance "tie" (of_Z 48) (dec 2 1) 2%nat].

(** [tie_instance] with its items in the other order. *)
Definition reversed_tie_instance : JRPInstance :=
  {| instance_name := "tie, reversed"; A := of_Z 48; r := dec 2 1;
     items := [{| id := "X"; a := of_Z 1; D := of_Z 1; v := of_Z 1 |};
               {| id := "Y"; a := of_Z 2401; D := of_Z 4; v := of_Z 1 |}] |}.

(** [tie_instance] as a file could describe it: no [instance_name], the
    entries in another order, and entries the page does not know. *)
Definition tie_data : Dyn.value :=
  Dyn.Dict
    [("r", Dyn.Float (dec 2 1));
     ("items",
      Dyn.List
        [Dyn.Dict [("id", Dyn.Str "Y"); ("a", Dyn.Float (of_Z 2401));
                   ("D", Dyn.Float (of_Z 4)); ("v", Dyn.Float (of_Z 1))];
         Dyn.Dict [("v", Dyn.Float (of_Z 1)); ("unit", Dyn.Str "box");
                   ("id", Dyn.Str "X"); ("a", Dyn.Float (of_Z 1));
                   ("D", Dyn.Float (of_Z 1))]]);
     ("comment", Dyn.NoneV);
     ("A", Dyn.Float (of_Z 48))].

(** A file whose second item has no [D], and which has no [A] either. *)
Definition missing_D_data : Dyn.value :=
  Dyn.Dict
    [("r", Dyn.Float (dec 2 1));
     ("items",
      Dyn.List
        [Dyn.Dict [("id", Dyn.Str "Y"); ("a", Dyn.Float (of_Z 2401));
                   ("D", Dyn.Float (of_Z 4)); ("v", Dyn.Float (of_Z 1))];
         Dyn.Dict [("id", Dyn.Str "X"); ("a", Dyn.Float (of_Z 1));
                   ("v", Dyn.Float (of_Z 1))]])].

(** ** The error monad and the loops *)

Lemma bind_Ok {A B} (m : result A) (f : A → result B) (y : B) :
  m ≫= f = Ok y ↔ ∃ x, m = Ok x ∧ f x = Ok y.
Proof.
  destruct m as [x|e]; simpl; split.
  - intros H. by exists x.
  - by intros (x' & [= ->] & H).
  - intros H. discriminate H.
  - by intros (x' & [=] & _).
Qed.

Ltac inv_ok :=
  repeat match goal with
    | H : _ ≫= _ = Ok _ |- _ =>
        let x := fresh "x" in
        let E := fresh "E" in
        apply bind_Ok in H; destruct H as (x & E & H)
    | H : Ok _ = Ok _ |- _ => injection H as H
    end.

Lemma getitem_Ok {A} (l : list A) (i : nat) (x : A) :
  Py.getitem l i = Ok x ↔ l !! i = Some x.
Proof. unfold Py.getitem. destruct (l !! i); split; congruence. Qed.

Lemma setitem_Ok {A} (l l' : list A) (i : nat) (x : A) :
  Py.setitem l i x = Ok l' ↔ (i < length l)%nat ∧ l' = <[i:=x]> l.
Proof.
  unfold Py.setitem. case_decide; split.
  - by intros [= <-].
  - by intros [_ ->].
  - intros [=].
  - by intros [? _].
Qed.

(** A loop invariant over the elements already visited. *)
Lemma for_each_invariant {S I} (body : S → I → result S)
    (P : list I → S → Prop) (l : list I) (s0 s : S) :
  P [] s0 →
  (∀ visited i s1 s2,
     i ∈ l → P visited s1 → body s1 i = Ok s2 → P (visited ++ [i]) s2) →
  Py.for_each body l s0 = Ok s →
  P l s.
Proof.
  intros H0 Hstep.
  cut (∀ rest visited s1,
         (∀ i, i ∈ rest → i ∈ l) → P visited s1 →
         Py.for_each body rest s1 = Ok s →
         P (visited ++ rest) s).
  { intros Hcut Hrun. by apply (Hcut l [] s0). }
  induction rest as [|i rest IH]; intros visited s1 Hsub HP Hrun; simpl in Hrun.
  - injection Hrun as <-. by rewrite app_nil_r.
  - inv_ok. rewrite cons_middle, app_assoc.
    apply (IH _ x); [|eapply Hstep|]; try done.
    + intros j Hj. apply Hsub. by right.
    + apply Hsub. by left.
Qed.

Lemma comprehension_Ok {A B} (f : A → result B) (l : list A) (ys : list B) :
  Py.comprehension f l = Ok ys ↔ Forall2 (λ x y, f x = Ok y) l ys.
Proof.
  revert ys. induction l as [|x l IH]; intros ys; simpl.
  - split.
    + intros [= <-]. constructor.
    + intros H. by inversion H.
  - rewrite bind_Ok. split.
    + intros (y & Hy & H). apply bind_Ok in H as (ys' & Hys & [= <-]).
      constructor; [done|]. by apply IH.
    + intros H. inversion H as [|? y ? ys' Hy Hys]; subst.
      exists y. split; [done|]. apply bind_Ok. exists ys'.
      split; [by apply IH | done].
Qed.

Lemma enumerate_lookup {A} (l : list A) (i : nat) :
  Py.enumerate l !! i = (λ x, (i, x)) <$> l !! i.
Proof. unfold Py.enumerate. by rewrite list_lookup_imap. Qed.

Lemma length_enumerate {A} (l : list A) :
  length (Py.enumerate l) = length l.
Proof. unfold Py.enumerate. by rewrite length_imap. Qed.

(** ** The multiplier step *)

Section Multipliers.

Variable instance : JRPInstance.

Lemma multiplier_body_Ok (item_0 : Item) (ms ms' : list Z) (i : nat) :
  sorted_items instance !! 0%nat = Some item_0 →
  (1 ≤ i)%nat →
  multiplier_body instance (mul (D item_0) (v item_0)) ms i = Ok ms' →
  ∃ m, multiplier_formula instance i = Ok m ∧ (1 ≤ m)%Z ∧
       (i < length ms)%nat ∧ ms' = <[i:=m]> ms.
Proof.
  intros H0 Hi Hbody. unfold multiplier_body in Hbody. inv_ok.
  apply getitem_Ok in E, E0. apply setitem_Ok in Hbody as [Hlt ->].
  assert (x0 = item_0) as -> by congruence.
  exists (Z.max 1 x3). split; [|split; [lia|done]].
  unfold multiplier_formula. destruct i as [|i]; [lia|].
  apply getitem_Ok in E, E0. rewrite E, E0. simpl.
  rewrite E1. simpl. rewrite E2. simpl. by rewrite E3.
Qed.

(** What the multiplier loop leaves in [m_values]. *)
Lemma calculate_m_Ok (ms : list Z) :
  calculate_m instance = Ok ms →
  length ms = length (sorted_items instance) ∧
  ∀ i m, ms !! i = Some m → multiplier_formula instance i = Ok m ∧ 1 ≤ m.
Proof.
  unfold calculate_m. intros Hrun. inv_ok. rename x into item_0.
  apply getitem_Ok in E.
  set (n := length (sorted_items instance)) in *.
  pose (P := λ (visited : list nat) (ms : list Z),
          length ms = n ∧
          ∀ i m, ms !! i = Some m →
                 (i ∈ visited → multiplier_formula instance i = Ok m ∧ 1 ≤ m)
                 ∧ (i ∉ visited → m = 1)).
  assert (P (seq 1 (n - 1)) ms) as [Hlen Hall].
  { eapply for_each_invariant; [| |exact Hrun].
    - split; [by rewrite length_replicate|].
      intros i m [-> _]%lookup_replicate. split; [|done].
      by intros ?%elem_of_nil.
    - intros visited i ms1 ms2 [Hi _]%elem_of_seq [Hlen Hall] Hbody.
      apply (multiplier_body_Ok item_0) in Hbody
        as (m & Hm & Hm1 & Hlt & ->); [|done..].
      split; [by rewrite length_insert|].
      intros j mj Hj. destruct (decide (i = j)) as [<-|Hne].
      + rewrite list_lookup_insert_eq in Hj by done.
        injection Hj as <-. split; [done|].
        intros Hnot. exfalso. apply Hnot, elem_of_app. right. by left.
      + rewrite list_lookup_insert_ne in Hj by done.
        destruct (Hall j mj Hj) as [Hin Hout]. split.
        * intros [?|?%list_elem_of_singleton]%elem_of_app; [auto|congruence].
        * intros Hnot. apply Hout. intros ?. apply Hnot, elem_of_app. auto. }
  split; [done|]. intros i m Him.
  destruct (Hall i m Him) as [Hin Hout].
  destruct i as [|i].
  - rewrite Hout; [done|]. intros [? _]%elem_of_seq. lia.
  - apply Hin, elem_of_seq. apply lookup_lt_Some in Him. lia.
Qed.

(** The loop in full: one iteration writes the value of the formula at its
    rank, or raises what the formula raises. *)
Lemma multiplier_body_formula (item_0 : Item) (pre post : list Z) (old : Z) :
  sorted_items instance !! 0%nat = Some item_0 →
  (1 ≤ length pre)%nat →
  multiplier_body instance (mul (D item_0) (v item_0)) (pre ++ old :: post)
    (length pre)
  = m ← multiplier_formula instance (length pre); Ok (pre ++ m :: post).
Proof.
  intros H0 Hpre. unfold multiplier_body, multiplier_formula.
  destruct (length pre) as [|i] eqn:Hi; [lia|].
  apply getitem_Ok in H0. rewrite H0.
  destruct (Py.getitem (sorted_items instance) (S i)) as [item_i|e];
    simpl; [|done].
  destruct (Py.truediv _ _) as [q|e]; simpl; [|done].
  destruct (Py.math_sqrt _) as [root|e]; simpl; [|done].
  destruct (Py.round root) as [k|e]; simpl; [|done].
  unfold Py.setitem. rewrite decide_True by (rewrite length_app; simpl; lia).
  f_equal. rewrite <- Hi, insert_app_r_alt by lia.
  by rewrite Nat.sub_diag.
Qed.

Lemma multiplier_loop_formula (item_0 : Item) (j : nat) (pre : list Z) :
  sorted_items instance !! 0%nat = Some item_0 →
  (1 ≤ length pre)%nat →
  Py.for_each (multiplier_body instance (mul (D item_0) (v item_0)))
    (seq (length pre) j) (pre ++ replicate j 1)
  = rest ← Py.comprehension (multiplier_formula instance)
             (seq (length pre) j);
    Ok (pre ++ rest).
Proof.
  intros H0. revert pre. induction j as [|j IH]; intros pre Hpre; simpl.
  - by rewrite app_nil_r.
  - rewrite (multiplier_body_formula item_0) by done.
    destruct (multiplier_formula instance (length pre)) as [m|e];
      simpl; [|done].
    specialize (IH (pre ++ [m])).
    rewrite length_app, Nat.add_1_r, <- app_assoc in IH. simpl in IH.
    rewrite IH by lia.
    destruct (Py.comprehension _ _) as [rest|e]; simpl; [|done].
    by rewrite <- app_assoc.
Qed.

(** The multiplier step is the list of the values of the formula, rank by
    rank, and raises where the formula first raises. *)
Lemma calculate_m_formula :
  items instance ≠ [] →
  calculate_m instance
  = Py.comprehension (multiplier_formula instance)
      (seq 0 (length (items instance))).
Proof.
  intros Hne. unfold calculate_m.
  assert (length (sorted_items instance) = length (items instance)) as Hlen.
  { unfold sorted_items. clear Hne.
    induction (items instance) as [|x l IH]; simpl; [done|].
    rewrite <- IH. clear IH.
    induction (Py.sorted a_over_Dv l) as [|y l' IH]; simpl; [done|].
    destruct (ltb _ _); simpl; by rewrite ?IH. }
  rewrite Hlen.
  destruct (length (items instance)) as [|j] eqn:Hj.
  { by destruct (items instance). }
  destruct (lookup_lt_is_Some_2 (sorted_items instance) 0) as [item_0 H0];
    [lia|].
  rewrite (proj2 (getitem_Ok _ _ _) H0). simpl. rewrite Nat.sub_0_r.
  apply (multiplier_loop_formula item_0 j [1] H0). simpl. lia.
Qed.

End Multipliers.

(** ** The base cycle and the per-item records *)

Section Records.

Variable instance : JRPInstance.

Lemma result_body_Ok (ms : list Z) (T_star : float) (rows rows' : list Row)
    (e : nat * Item) :
  result_body instance ms T_star rows e = Ok rows' →
  ∃ m row, ms !! e.1 = Some m ∧ policy_result instance T_star e.2 m row ∧
           rows' = rows ++ [row].
Proof.
  unfold result_body. intros H. inv_ok. apply getitem_Ok in E.
  eexists x, _. split; [done|]. split; [|by rewrite <- H].
  exists x0, x1, x2. simpl. by repeat split.
Qed.

Lemma result_loop_Ok (ms : list Z) (T_star : float) (l : list (nat * Item))
    (rows : list Row) :
  Py.for_each (result_body instance ms T_star) l [] = Ok rows →
  Forall2 (λ e row, ∃ m, ms !! e.1 = Some m ∧
                         policy_result instance T_star e.2 m row)
    l rows.
Proof.
  apply (for_each_invariant _
    (Forall2 (λ e row, ∃ m, ms !! e.1 = Some m ∧
                            policy_result instance T_star e.2 m row))).
  - constructor.
  - intros visited e rows1 rows2 _ IH Hbody.
    apply result_body_Ok in Hbody as (m & row & Hm & Hrow & ->).
    apply Forall2_app; [done|]. constructor; [|constructor]. eauto.
Qed.

(** The rows of a completed run, position by position. *)
Lemma item_results_Ok (ms : list Z) (T_star : float) (rows : list Row) :
  Py.for_each (result_body instance ms T_star)
    (Py.enumerate (sorted_items instance)) [] = Ok rows →
  length rows = length (sorted_items instance) ∧
  ∀ i row, rows !! i = Some row →
    ∃ item m, sorted_items instance !! i = Some item ∧ ms !! i = Some m ∧
              policy_result instance T_star item m row.
Proof.
  intros Hall%result_loop_Ok. split.
  - apply Forall2_length in Hall. by rewrite length_enumerate in Hall.
  - intros i row Hrow.
    destruct (Forall2_lookup_r _ _ _ _ _ Hall Hrow) as (e & He & m & Hm & Hp).
    rewrite enumerate_lookup in He.
    destruct (sorted_items instance !! i) as [item|] eqn:Hitem; [|done].
    injection He as <-. by exists item, m.
Qed.

Lemma enumerate_comprehension {X B} (ms : list X) (g : Item → X → result B)
    (l : list Item) :
  length ms = length l →
  Py.comprehension (λ e : nat * Item, m ← Py.getitem ms e.1; g e.2 m)
    (Py.enumerate l)
  = Py.comprehension (λ e : Item * X, g e.1 e.2) (zip l ms).
Proof.
  unfold Py.enumerate.
  cut (∀ (f : nat → nat) (l : list Item) (ms' : list X),
         length ms' = length l →
         (∀ i, ms !! f i = ms' !! i) →
         Py.comprehension (λ e : nat * Item, m ← Py.getitem ms e.1; g e.2 m)
           (imap (λ i x, (f i, x)) l)
         = Py.comprehension (λ e : Item * X, g e.1 e.2) (zip l ms')).
  { intros Hcut Hlen. by apply (Hcut (λ i, i)). }
  clear l. intros f l. revert f.
  induction l as [|x l IH]; intros f [|m ms'] Hlen Hf; try done. simpl.
  assert (Py.getitem ms (f 0%nat) = Ok m) as -> by apply getitem_Ok, Hf.
  simpl. destruct (g x m); [|done]. simpl.
  specialize (IH (f ∘ S) ms'). unfold compose in *.
  rewrite IH; [done|by injection Hlen|].
  intros i. apply (Hf (S i)).
Qed.

Lemma calculate_T_star_formula (ms : list Z) :
  length ms = length (sorted_items instance) →
  calculate_T_star instance ms
  = T_star_formula instance (sorted_items instance) ms.
Proof.
  intros Hlen.
  unfold calculate_T_star, calculate_num, calculate_den, T_star_formula.
  unfold num_term, den_term.
  rewrite (enumerate_comprehension ms
             (λ item m, fm ← Py.float_of_int m; Py.truediv (a item) fm))
    by done.
  rewrite (enumerate_comprehension ms
             (λ item m, fm ← Py.float_of_int m;
                        Ok (mul (mul fm (D item)) (v item)))) by done.
  set (c1 := Py.comprehension _ _). set (c2 := Py.comprehension _ _).
  by destruct c1, c2.
Qed.

End Records.

(** ** A completed run *)

Lemma rows_multipliers (instance : JRPInstance) (ms : list Z) (T_star : float)
    (rows : list Row) :
  length ms = length (sorted_items instance) →
  Py.for_each (result_body instance ms T_star)
    (Py.enumerate (sorted_items instance)) [] = Ok rows →
  Multiplier <$> rows = ms.
Proof.
  intros Hlen [Hlen' Hrows]%item_results_Ok.
  apply list_eq_same_length with (length rows);
    [congruence|by rewrite length_fmap|].
  intros i m m' _ Hi Hi'. rewrite list_lookup_fmap in Hi.
  destruct (rows !! i) as [row|] eqn:Hrow; [|done]. injection Hi as <-.
  destruct (Hrows i row Hrow) as (item & m & _ & Hm & Hp).
  destruct Hp as (? & ? & ? & _ & _ & _ & _ & -> & _). congruence.
Qed.

(** The phases a run that returns has gone through. *)
Lemma find_optimal_policy_Ok (instance : JRPInstance) (T_star total : float)
    (rows : list Row) :
  find_optimal_policy instance = Ok (T_star, total, rows) →
  ∃ (ms : list Z) (major : float),
    calculate_m instance = Ok ms ∧
    calculate_T_star instance ms = Ok T_star ∧
    Py.for_each (result_body instance ms T_star)
      (Py.enumerate (sorted_items instance)) [] = Ok rows ∧
    Py.truediv (A instance) T_star = Ok major ∧
    total = add major (Py.sum (Total_Item_Cost <$> rows)) ∧
    Multiplier <$> rows = ms.
Proof.
  unfold find_optimal_policy. intros H. inv_ok. subst.
  exists x, x2. repeat split; try done.
  apply (rows_multipliers instance x T_star); [|done].
  by apply calculate_m_Ok in E as [? _].
Qed.

(** ** The order of binary64 *)

Module FloatOrder.

Lemma compare_rank (x y : float) :
  is_nan x = false → is_nan y = false →
  ∃ c, SFcompare x y = Some c ∧
       match c with
       | Lt => lex_lt (rank x) (rank y)
       | Eq => lex_eq (rank x) (rank y)
       | Gt => lex_lt (rank y) (rank x)
       end.
Proof.
  unfold lex_lt, lex_eq.
  destruct x as [[]|[]| |[] m1 e1], y as [[]|[]| |[] m2 e2];
    intros Hx Hy; try discriminate; simpl;
    try (eexists; split; [reflexivity|]; simpl; lia).
  - eexists; split; [reflexivity|].
    rewrite Pos.compare_cont_spec. simpl.
    destruct (Z.compare_spec e1 e2), (Pos.compare_spec m1 m2);
      simpl; lia.
  - eexists; split; [reflexivity|].
    rewrite Pos.compare_cont_spec. simpl.
    destruct (Z.compare_spec e1 e2), (Pos.compare_spec m1 m2);
      simpl; lia.
Qed.

Lemma ltb_rank (x y : float) :
  is_nan x = false → is_nan y = false →
  ltb x y = true ↔ lex_lt (rank x) (rank y).
Proof.
  intros Hx Hy. destruct (compare_rank x y Hx Hy) as (c & Hc & Hr).
  unfold ltb, SFltb. rewrite Hc. unfold lex_lt, lex_eq in *.
  destruct c; split; try done; lia.
Qed.

Lemma leb_rank (x y : float) :
  is_nan x = false → is_nan y = false →
  leb x y = true ↔ lex_le (rank x) (rank y).
Proof.
  intros Hx Hy. destruct (compare_rank x y Hx Hy) as (c & Hc & Hr).
  unfold leb, SFleb. rewrite Hc. unfold lex_le, lex_lt, lex_eq in *.
  destruct c; split; try done; lia.
Qed.

Lemma eqb_rank (x y : float) :
  is_nan x = false → is_nan y = false →
  eqb x y = true ↔ lex_eq (rank x) (rank y).
Proof.
  intros Hx Hy. destruct (compare_rank x y Hx Hy) as (c & Hc & Hr).
  unfold eqb, SFeqb. rewrite Hc. unfold lex_lt, lex_eq in *.
  destruct c; split; try done; lia.
Qed.

Lemma eqb_not_nan (x y : float) :
  eqb x y = true → is_nan x = false ∧ is_nan y = false.
Proof. by destruct x as [| | |], y as [| | |]. Qed.

Lemma ltb_not_nan (x y : float) :
  ltb x y = true → is_nan x = false ∧ is_nan y = false.
Proof. by destruct x as [| | |], y as [| | |]. Qed.

(** Without a NaN, [not (y < x)] is [x <= y]. *)
Lemma not_ltb_leb (x y : float) :
  is_nan x = false → is_nan y = false → ltb y x = false → leb x y = true.
Proof.
  intros Hx Hy Hlt. apply leb_rank; [done..|].
  assert (¬ lex_lt (rank y) (rank x)) as Hn.
  { rewrite <- ltb_rank by done. by rewrite Hlt. }
  unfold lex_le, lex_lt in *. lia.
Qed.

Lemma ltb_leb (x y : float) : ltb x y = true → leb x y = true.
Proof.
  intros Hlt. destruct (ltb_not_nan _ _ Hlt) as [Hx Hy].
  apply leb_rank; [done..|]. apply ltb_rank in Hlt; [|done..].
  unfold lex_le, lex_lt in *. lia.
Qed.

Lemma leb_trans (x y z : float) :
  is_nan x = false → is_nan y = false → is_nan z = false →
  leb x y = true → leb y z = true → leb x z = true.
Proof.
  intros Hx Hy Hz. rewrite !leb_rank by done.
  unfold lex_le. lia.
Qed.

(** Two keys equal to a third are not strictly ordered. *)
Lemma eqb_eqb_not_ltb (x y k : float) :
  eqb x k = true → eqb y k = true → ltb y x = false.
Proof.
  intros Hxk Hyk.
  destruct (eqb_not_nan _ _ Hxk) as [Hx Hk].
  destruct (eqb_not_nan _ _ Hyk) as [Hy _].
  apply eqb_rank in Hxk, Hyk; [|done..].
  apply not_true_is_false. rewrite ltb_rank by done.
  unfold lex_lt, lex_eq in *. lia.
Qed.

Lemma leb_not_nan (x y : float) :
  leb x y = true → is_nan x = false ∧ is_nan y = false.
Proof. by destruct x as [| | |], y as [| | |]. Qed.

Lemma leb_antisym (x y : float) :
  leb x y = true → leb y x = true → eqb x y = true.
Proof.
  intros Hxy Hyx. destruct (leb_not_nan _ _ Hxy) as [Hx Hy].
  apply leb_rank in Hxy, Hyx; [|done..]. apply eqb_rank; [done..|].
  unfold lex_le, lex_eq in *. lia.
Qed.

Lemma leb_refl (x : float) : is_nan x = false → leb x x = true.
Proof. intros Hx. apply leb_rank; [done..|]. unfold lex_le. lia. Qed.

Lemma eqb_refl (x : float) : is_nan x = false → eqb x x = true.
Proof. intros Hx. apply eqb_rank; [done..|]. unfold lex_eq. lia. Qed.

Lemma leb_pinf_finite (x : float) :
  is_finite x = true → leb pinf x = false.
Proof. by destruct x as [| | |[]]. Qed.

End FloatOrder.

(** ** [sorted] *)

Section Sorted.

Context {X : Type} (key : X → float).

Lemma insert_by_Permutation (x : X) (l : list X) :
  Py.insert_by key x l ≡ₚ x :: l.
Proof.
  induction l as [|y l IH]; simpl; [done|].
  destruct (ltb (key y) (key x)); [|done].
  by rewrite IH, Permutation_swap.
Qed.

Lemma sorted_Permutation (l : list X) : Py.sorted key l ≡ₚ l.
Proof.
  induction l as [|x l IH]; simpl; [done|].
  by rewrite insert_by_Permutation, IH.
Qed.

Lemma length_sorted (l : list X) : length (Py.sorted key l) = length l.
Proof. by rewrite sorted_Permutation. Qed.

Lemma insert_by_StronglySorted (x : X) (l : list X) :
  is_nan (key x) = false →
  Forall (λ y, is_nan (key y) = false) l →
  StronglySorted (key_le key) l →
  StronglySorted (key_le key) (Py.insert_by key x l).
Proof.
  intros Hx Hnan Hl.
  induction Hl as [|y l Hl IH Hy]; simpl.
  - by repeat constructor.
  - apply Forall_cons in Hnan as [Hny Hnan].
    destruct (ltb (key y) (key x)) eqn:Hlt.
    + constructor; [by apply IH|].
      rewrite insert_by_Permutation. constructor; [|done].
      by apply FloatOrder.ltb_leb.
    + assert (key_le key x y) as Hxy by by apply FloatOrder.not_ltb_leb.
      constructor; [by constructor|].
      constructor; [done|].
      rewrite Forall_forall in Hnan, Hy. apply Forall_forall. intros z Hz.
      apply FloatOrder.leb_trans with (key y); auto. by apply Hy.
Qed.

(** Without a NaN among the keys, the result is in ascending key order. *)
Lemma sorted_StronglySorted (l : list X) :
  Forall (λ y, is_nan (key y) = false) l →
  StronglySorted (key_le key) (Py.sorted key l).
Proof.
  induction 1 as [|x l Hx Hl IH]; simpl; [constructor|].
  apply insert_by_StronglySorted; [done| |done].
  by rewrite sorted_Permutation.
Qed.

Lemma StronglySorted_lookup (l : list X) (i j : nat) (x y : X) :
  StronglySorted (key_le key) l → (i < j)%nat →
  l !! i = Some x → l !! j = Some y → key_le key x y.
Proof.
  intros Hl. revert i j.
  induction Hl as [|z l Hl IH Hz]; intros i j Hij Hi Hj; [done|].
  destruct j as [|j]; [lia|]. simpl in Hj.
  destruct i as [|i]; simpl in Hi.
  - injection Hi as ->. rewrite Forall_forall in Hz.
    apply Hz. by eapply list_elem_of_lookup_2.
  - apply (IH i j); [lia|done..].
Qed.

(** The sort is stable: the items whose key equals [k] come out in the
    order in which they went in. *)
Lemma insert_by_stable (k : float) (x : X) (l : list X) :
  filter (λ y, eqb (key y) k = true) (Py.insert_by key x l)
  = filter (λ y, eqb (key y) k = true) (x :: l).
Proof.
  induction l as [|y l IH]; simpl; [done|].
  destruct (ltb (key y) (key x)) eqn:Hlt; [|done].
  rewrite filter_cons, IH, !filter_cons.
  destruct (decide (eqb (key y) k = true)) as [Hy|Hy];
    destruct (decide (eqb (key x) k = true)) as [Hx|Hx]; try done.
  by rewrite (FloatOrder.eqb_eqb_not_ltb _ _ _ Hx Hy) in Hlt.
Qed.

Lemma sorted_stable (k : float) (l : list X) :
  filter (λ y, eqb (key y) k = true) (Py.sorted key l)
  = filter (λ y, eqb (key y) k = true) l.
Proof.
  induction l as [|x l IH]; simpl; [done|].
  by rewrite insert_by_stable, !filter_cons, IH.
Qed.

(** [sorted] is determined by its contract: a permutation in ascending key
    order that keeps the items of equal key in their order is the list
    computed here, so the sorting algorithm behind [sorted] does not matter
    when no key is a NaN. *)
Lemma stable_sorted_unique (l1 l2 : list X) :
  Forall (λ y, is_nan (key y) = false) l1 →
  l1 ≡ₚ l2 →
  StronglySorted (key_le key) l1 → StronglySorted (key_le key) l2 →
  (∀ k, filter (λ y, eqb (key y) k = true) l1
        = filter (λ y, eqb (key y) k = true) l2) →
  l1 = l2.
Proof.
  revert l2. induction l1 as [|x l1 IH]; intros l2 Hnan Hperm H1 H2 Hstable.
  { by apply Permutation_nil_l in Hperm. }
  destruct l2 as [|y l2]; [by apply Permutation_nil_r in Hperm|].
  apply Forall_cons in Hnan as [Hx Hnan].
  apply StronglySorted_cons in H1 as [Hx1 H1], H2 as [Hy2 H2].
  rewrite Forall_forall in Hx1, Hy2.
  assert (key_le key x y) as Hxy.
  { assert (y ∈ x :: l1) as [->|?]%elem_of_cons by (rewrite Hperm; by left).
    - by apply FloatOrder.leb_refl.
    - by apply Hx1. }
  assert (key_le key y x) as Hyx.
  { assert (x ∈ y :: l2) as [->|?]%elem_of_cons by (rewrite <- Hperm; by left).
    - by apply FloatOrder.leb_refl.
    - by apply Hy2. }
  assert (x = y) as <-.
  { pose proof (Hstable (key x)) as Hk. rewrite !filter_cons in Hk.
    rewrite decide_True in Hk by by apply FloatOrder.eqb_refl.
    rewrite decide_True in Hk by by apply FloatOrder.leb_antisym.
    by injection Hk. }
  f_equal. apply IH; [done|by apply Permutation_cons_inv in Hperm|done..|].
  intros k. specialize (Hstable k). rewrite !filter_cons in Hstable.
  destruct (decide (eqb (key x) k = true)); [by injection Hstable|done].
Qed.

Lemma sorted_canonical (l ranked : list X) :
  Forall (λ y, is_nan (key y) = false) l →
  ranked ≡ₚ l →
  StronglySorted (key_le key) ranked →
  (∀ k, filter (λ y, eqb (key y) k = true) ranked
        = filter (λ y, eqb (key y) k = true) l) →
  ranked = Py.sorted key l.
Proof.
  intros Hnan Hperm Hsorted Hstable.
  apply stable_sorted_unique; [by rewrite Hperm| |done| |].
  - by rewrite sorted_Permutation.
  - by apply sorted_StronglySorted.
  - intros k. by rewrite sorted_stable.
Qed.

End Sorted.

(** ** The ranking key is a number *)

Module FloatRounding.

Lemma shr_1_nonneg (mrs : shr_record) :
  0 ≤ shr_m mrs → 0 ≤ shr_m (shr_1 mrs).
Proof. destruct mrs as [[|[p|p|]|p] b s]; simpl; lia. Qed.

Lemma iter_shr_1_nonneg (p : positive) (mrs : shr_record) :
  0 ≤ shr_m mrs → 0 ≤ shr_m (SpecFloat.iter_pos shr_1 p mrs).
Proof.
  revert mrs. induction p as [p IH|p IH|]; intros mrs H; simpl.
  - by apply IH, IH, shr_1_nonneg.
  - by apply IH, IH.
  - by apply shr_1_nonneg.
Qed.

Lemma shr_fexp_nonneg (m e : Z) (l : location) :
  0 ≤ m → 0 ≤ shr_m (shr_fexp prec emax m e l).1.
Proof.
  intros Hm. unfold shr_fexp, shr.
  assert (0 ≤ shr_m (shr_record_of_loc m l)) by by destruct l as [|[]].
  destruct (fexp prec emax (Zdigits2 m + e) - e); simpl; [done| |done].
  by apply iter_shr_1_nonneg.
Qed.

Lemma round_nearest_even_nonneg (m : Z) (l : location) :
  0 ≤ m → 0 ≤ round_nearest_even m l.
Proof. destruct l as [|[]]; simpl; try lia. destruct (Z.even m); lia. Qed.

(** Rounding a non-negative mantissa never yields a NaN. *)
Lemma binary_round_aux_not_nan (s : bool) (m e : Z) (l : location) :
  0 ≤ m → is_nan (binary_round_aux prec emax s m e l) = false.
Proof.
  intros Hm. unfold binary_round_aux.
  pose proof (shr_fexp_nonneg m e l Hm) as H1.
  destruct (shr_fexp prec emax m e l) as [mrs1 e1]. simpl in H1.
  pose proof (shr_fexp_nonneg
                (round_nearest_even (shr_m mrs1) (loc_of_shr_record mrs1))
                e1 loc_Exact
                (round_nearest_even_nonneg _ _ H1)) as H2.
  destruct (shr_fexp prec emax _ e1 loc_Exact) as [mrs2 e2]. simpl in H2.
  destruct (shr_m mrs2); [done| |lia].
  by destruct (e2 <=? emax - prec).
Qed.

Lemma div_not_nan (x y : float) :
  is_finite x = true → ltb zero y = true → is_nan (div x y) = false.
Proof.
  destruct x as [sx| | |sx mx ex], y as [sy|[]| |[] my ey]; try done.
  intros _ _. unfold div, SFdiv.
  destruct (SFdiv_core_binary prec emax (Z.pos mx) ex (Z.pos my) ey)
    as [[mz ez] lz] eqn:Hcore.
  apply binary_round_aux_not_nan.
  unfold SFdiv_core_binary in Hcore.
  set (m' := match _ - _ - _ with Z.pos _ => _ | Z0 => _ | _ => _ end)
    in Hcore.
  assert (0 ≤ m') as Hm'.
  { unfold m'. destruct (_ - _ - _); [lia| |lia].
    apply Z.shiftl_nonneg. lia. }
  pose proof (Z.div_pos m' (Z.pos my) Hm' eq_refl) as Hq.
  unfold Z.div in Hq. destruct (Z.div_eucl m' (Z.pos my)) as [q rem].
  by injection Hcore as <- _ _.
Qed.

End FloatRounding.

Lemma a_over_Dv_division (self : Item) :
  ltb zero (mul (D self) (v self)) = true →
  Py.truediv (a self) (mul (D self) (v self)) = Ok (a_over_Dv self).
Proof.
  intros Hpos. unfold a_over_Dv, Py.truediv. rewrite Hpos.
  by destruct (mul (D self) (v self)).
Qed.

Lemma a_over_Dv_not_nan (self : Item) :
  is_finite (a self) = true → is_nan (a_over_Dv self) = false.
Proof.
  intros Ha. unfold a_over_Dv.
  destruct (ltb zero (mul (D self) (v self))) eqn:Hpos; [|done].
  by apply FloatRounding.div_not_nan.
Qed.

Lemma a_over_Dv_zero_rate (self : Item) :
  is_zero (mul (D self) (v self)) = true → a_over_Dv self = pinf.
Proof.
  intros Hz. unfold a_over_Dv. by destruct (mul (D self) (v self)).
Qed.


(** ** The run on the heap, step by step *)

Module HeapRun.

Local Abbreviation pure_multiplier_body := multiplier_body.
Local Abbreviation pure_num_term := num_term.
Local Abbreviation pure_den_term := den_term.
Local Abbreviation pure_result_body := result_body.
Local Abbreviation pure_find_optimal_policy := find_optimal_policy.

Import Heap.

(** The numeric builtins stay folded while the heap is traced. *)
#[local] Opaque Py.truediv Py.math_sqrt Py.round Py.round_ndigits
  Py.float_of_int of_Z.

Lemma bind_run {X Y} (c : St X) (f : X → St Y) (h h' : heap) (x : X) :
  c h = (Ok x, h') → (c ≫= f) h = f x h'.
Proof. intros H. unfold mbind, St_bind. by rewrite H. Qed.

Lemma bind_raise {X Y} (c : St X) (f : X → St Y) (h h' : heap) (e : exn) :
  c h = (Raise e, h') → (c ≫= f) h = (Raise e, h').
Proof. intros H. unfold mbind, St_bind. by rewrite H. Qed.

Lemma bind_reads {X Y} (c : St X) (f : X → St Y) (h : heap) (p : result X) :
  reads c h p →
  (c ≫= f) h = match p with Ok x => f x h | Raise e => (Raise e, h) end.
Proof. intros H. unfold mbind, St_bind. rewrite H. by destruct p. Qed.

Lemma reads_lift {X} (p : result X) (h : heap) : reads (lift p) h p.
Proof. done. Qed.

Lemma reads_ret {X} (x : X) (h : heap) : reads (mret x) h (Ok x).
Proof. done. Qed.

Lemma reads_bind {X Y} (c : St X) (f : X → St Y) (h : heap) (p : result X)
    (g : X → result Y) :
  reads c h p → (∀ x, p = Ok x → reads (f x) h (g x)) →
  reads (c ≫= f) h (p ≫= g).
Proof.
  intros Hc Hf. unfold reads. rewrite (bind_reads _ _ _ _ Hc).
  destruct p as [x|e]; [|done]. by apply Hf.
Qed.

Lemma reads_comprehension {X X' Y} (f : X → St Y) (g : X' → result Y)
    (h : heap) (l : list X) (l' : list X') :
  Forall2 (λ x x', reads (f x) h (g x')) l l' →
  reads (comprehension f l) h (Py.comprehension g l').
Proof.
  induction 1 as [|x x' l l' Hx Hl IH]; simpl; [done|].
  apply reads_bind; [done|]. intros y _.
  apply reads_bind; [done|]. intros ys _. apply reads_ret.
Qed.

Lemma reads_load (h : heap) (l : loc) (o : object) :
  h !! l = Some o → reads (load l) h (Ok o).
Proof. intros H. unfold reads, load. by rewrite H. Qed.

Lemma reads_load_list (h : heap) (l : loc) (elems : list value) :
  h !! l = Some (OList elems) → reads (load_list l) h (Ok elems).
Proof.
  intros H. unfold load_list.
  apply (reads_bind _ _ _ _ (λ o, Ok elems) (reads_load _ _ _ H)).
  by intros o [= <-].
Qed.

Lemma reads_list_getitem (h : heap) (l : loc) (elems : list value)
    (i : nat) :
  h !! l = Some (OList elems) →
  reads (list_getitem l i) h (Py.getitem elems i).
Proof.
  intros H. unfold list_getitem.
  apply (reads_bind _ _ _ _ (λ e, Py.getitem e i) (reads_load_list _ _ _ H)).
  intros e [= <-]. apply reads_lift.
Qed.

Lemma reads_len (h : heap) (l : loc) (elems : list value) :
  h !! l = Some (OList elems) → reads (len l) h (Ok (length elems)).
Proof.
  intros H. unfold len.
  apply (reads_bind _ _ _ _ (λ e, Ok (length e)) (reads_load_list _ _ _ H)).
  intros e [= <-]. apply reads_ret.
Qed.

Lemma reads_load_item (h : heap) (l : loc) (self : Item) :
  h !! l = Some (OItem self) → reads (load_item (VRef l)) h (Ok self).
Proof.
  intros H. unfold load_item.
  apply (reads_bind _ _ _ _ (λ o, Ok self) (reads_load _ _ _ H)).
  by intros o [= <-].
Qed.

Lemma reads_load_dict (h : heap) (l : loc) (row : Row) :
  h !! l = Some (ODict row) → reads (load_dict (VRef l)) h (Ok row).
Proof.
  intros H. unfold load_dict.
  apply (reads_bind _ _ _ _ (λ o, Ok row) (reads_load _ _ _ H)).
  by intros o [= <-].
Qed.

Lemma reads_as_int (h : heap) (n : Z) : reads (as_int (VInt n)) h (Ok n).
Proof. done. Qed.

Ltac run_lift :=
  rewrite (bind_reads _ _ _ _ (reads_lift _ _));
  match goal with
  | |- match ?p with Ok _ => _ | Raise _ => _ end = _ =>
      destruct p; simpl; [|done]
  end.

(** A loop whose body follows the pure body [body], the heap being [H s]
    when the pure state is [s]. *)
Lemma for_each_simulation {S I J} (body_st : I → St unit)
    (body : S → J → result S) (H : S → heap) (range : list I)
    (range' : list J) (s : S) :
  Forall2 (λ i j, ∀ s, body_st i (H s) =
                       match body s j with
                       | Ok s' => (Ok (), H s')
                       | Raise e => (Raise e, H s)
                       end) range range' →
  ∃ s1, for_each body_st range (H s) =
        match Py.for_each body range' s with
        | Ok s' => (Ok (), H s')
        | Raise e => (Raise e, H s1)
        end.
Proof.
  intros Hbody. revert s.
  induction Hbody as [|i j range range' Hij _ IH]; intros s; simpl.
  - by exists s.
  - unfold mbind at 1, St_bind. rewrite Hij.
    destruct (body s j) as [s'|e]; simpl; [apply IH|by exists s].
Qed.

Lemma insert_by_fmap {X Y} (k : Y → float) (f : X → Y) (x : X)
    (l : list X) :
  Py.insert_by k (f x) (f <$> l) = f <$> Py.insert_by (k ∘ f) x l.
Proof.
  induction l as [|y l IH]; csimpl; [done|].
  destruct (ltb (k (f y)) (k (f x))); [|done]. csimpl. by rewrite IH.
Qed.

(** Sorting commutes with a renaming of the elements. *)
Lemma sorted_fmap {X Y} (k : Y → float) (f : X → Y) (l : list X) :
  Py.sorted k (f <$> l) = f <$> Py.sorted (k ∘ f) l.
Proof.
  unfold Py.sorted. induction l as [|x l IH]; csimpl; [done|].
  by rewrite IH, insert_by_fmap.
Qed.

Lemma zip_fmap_same {X Y Z} (f : X → Y) (g : X → Z) (l : list X) :
  zip (f <$> l) (g <$> l) = (λ x, (f x, g x)) <$> l.
Proof. induction l as [|x l IH]; csimpl; [done|]. by rewrite IH. Qed.

Lemma comprehension_total {X Y} (f : X → Y) (l : list X) :
  Py.comprehension (λ x, Ok (f x)) l = Ok (f <$> l).
Proof. induction l as [|x l IH]; csimpl; [done|]. by rewrite IH. Qed.

Section Simulation.

Context (h0 : heap) (instance_loc items_loc : loc)
  (instance : JRPInstance) (bound : list (loc * Item)).

Hypothesis Hinstance :
  h0 !! instance_loc
  = Some (OInstance (instance_name instance) (A instance) (r instance)
            items_loc).
Hypothesis Hlist : h0 !! items_loc = Some (OList ((λ p, VRef p.1) <$> bound)).
Hypothesis Hitems : items instance = bound.*2.
Hypothesis Hobjects : Forall (λ p, h0 !! p.1 = Some (OItem p.2)) bound.

Local Abbreviation ranked := (Layout.ranked bound).
Local Abbreviation ranked_refs := (Layout.ranked_refs bound).
Local Abbreviation layout := (Layout.layout h0 bound).
Local Abbreviation same_rank := (Layout.same_rank bound).
Local Abbreviation row_refs := (Layout.row_refs h0).
Local Abbreviation results_layout := (Layout.results_layout h0 bound).

Lemma sorted_items_ranked : sorted_items instance = ranked.*2.
Proof. unfold sorted_items. rewrite Hitems. apply sorted_fmap. Qed.

Lemma ranked_objects :
  Forall (λ p, h0 !! p.1 = Some (OItem p.2)) ranked.
Proof. unfold Layout.ranked. by rewrite sorted_Permutation. Qed.

Lemma length_ranked : length ranked = length (sorted_items instance).
Proof. by rewrite sorted_items_ranked, length_fmap. Qed.

Lemma getitem_ranked_refs (i : nat) :
  Py.getitem ranked_refs i = (λ p, VRef p.1) <$> Py.getitem ranked i.
Proof.
  unfold Py.getitem, ranked_refs. rewrite list_lookup_fmap.
  by destruct (ranked !! i).
Qed.

Lemma getitem_sorted_items (i : nat) :
  Py.getitem (sorted_items instance) i = snd <$> Py.getitem ranked i.
Proof.
  unfold Py.getitem. rewrite sorted_items_ranked, list_lookup_fmap.
  by destruct (ranked !! i).
Qed.

Lemma getitem_ranked_object (i : nat) (p : loc * Item) :
  Py.getitem ranked i = Ok p → h0 !! p.1 = Some (OItem p.2).
Proof.
  intros Hp%getitem_Ok%list_elem_of_lookup_2.
  pose proof ranked_objects as H. rewrite Forall_forall in H. by apply H.
Qed.

Lemma reads_key (tail : heap) (p : loc * Item) :
  h0 !! p.1 = Some (OItem p.2) →
  reads (key (VRef p.1)) (h0 ++ tail) (Ok (a_over_Dv p.2)).
Proof.
  intros Hp. unfold key.
  apply (reads_bind _ _ _ _ (λ self, Ok (a_over_Dv self))
           (reads_load_item _ _ _ (lookup_app_l_Some _ tail _ _ Hp))).
  intros self _. apply reads_ret.
Qed.

Lemma sorted_run :
  sorted key items_loc h0 = (Ok (length h0), h0 ++ [OList ranked_refs]).
Proof.
  unfold sorted.
  rewrite (bind_reads _ _ _ _ (reads_load_list _ _ _ Hlist)).
  assert (reads (comprehension key ((λ p, VRef p.1) <$> bound)) h0
            (Ok ((a_over_Dv ∘ snd) <$> bound))) as Hkeys.
  { rewrite <- comprehension_total. apply reads_comprehension.
    apply Forall2_fmap_l, Forall_Forall2_diag.
    eapply Forall_impl; [exact Hobjects|]. intros p Hp.
    pose proof (reads_key [] p Hp) as H. by rewrite app_nil_r in H. }
  rewrite (bind_reads _ _ _ _ Hkeys). unfold new. do 3 f_equal.
  rewrite zip_fmap_same, sorted_fmap, <- list_fmap_compose.
  done.
Qed.

Lemma layout_caller (ms : list Z) (tail : heap) (l : loc) (o : object) :
  h0 !! l = Some o → layout ms tail !! l = Some o.
Proof. apply lookup_app_l_Some. Qed.

Lemma layout_sorted_items (ms : list Z) (tail : heap) :
  layout ms tail !! length h0 = Some (OList ranked_refs).
Proof. by apply list_lookup_middle. Qed.

Lemma layout_m_values (ms : list Z) (tail : heap) :
  layout ms tail !! S (length h0) = Some (OList (VInt <$> ms)).
Proof.
  unfold Layout.layout. rewrite lookup_app_r by lia.
  by replace (S (length h0) - length h0)%nat with 1%nat by lia.
Qed.

Lemma layout_tail (ms : list Z) (tail : heap) (i : nat) :
  layout ms tail !! (length h0 + 2 + i)%nat = tail !! i.
Proof.
  unfold Layout.layout. rewrite lookup_app_r by lia.
  by replace (length h0 + 2 + i - length h0)%nat with (S (S i)) by lia.
Qed.

Lemma layout_store_m_values (ms ms' : list Z) (tail : heap) :
  <[S (length h0) := OList (VInt <$> ms')]> (layout ms tail)
  = layout ms' tail.
Proof.
  unfold Layout.layout.
  replace (S (length h0)) with (length h0 + 1)%nat by lia.
  by rewrite insert_app_r.
Qed.

Lemma length_layout (ms : list Z) (tail : heap) :
  length (layout ms tail) = (length h0 + 2 + length tail)%nat.
Proof. unfold Layout.layout. rewrite length_app. simpl. lia. Qed.

Lemma reads_attr_A (ms : list Z) (tail : heap) :
  reads (attr_A instance_loc) (layout ms tail) (Ok (A instance)).
Proof.
  unfold attr_A.
  apply (reads_bind _ _ _ _ (λ o, Ok (A instance))
           (reads_load _ _ _ (layout_caller ms tail _ _ Hinstance))).
  by intros o [= <-].
Qed.

Lemma reads_attr_r (ms : list Z) (tail : heap) :
  reads (attr_r instance_loc) (layout ms tail) (Ok (r instance)).
Proof.
  unfold attr_r.
  apply (reads_bind _ _ _ _ (λ o, Ok (r instance))
           (reads_load _ _ _ (layout_caller ms tail _ _ Hinstance))).
  by intros o [= <-].
Qed.

Lemma reads_ranked_item (ms : list Z) (tail : heap) (i : nat)
    (p : loc * Item) :
  Py.getitem ranked i = Ok p →
  reads (load_item (VRef p.1)) (layout ms tail) (Ok p.2).
Proof.
  intros Hp. apply reads_load_item, layout_caller.
  by apply (getitem_ranked_object i).
Qed.

Lemma m_values_setitem_run (ms : list Z) (tail : heap) (i : nat) (m : Z) :
  list_setitem (S (length h0)) i (VInt m) (layout ms tail)
  = match Py.setitem ms i m with
    | Ok ms' => (Ok (), layout ms' tail)
    | Raise e => (Raise e, layout ms tail)
    end.
Proof.
  unfold list_setitem.
  rewrite (bind_reads _ _ _ _
             (reads_load_list _ _ _ (layout_m_values ms tail))).
  rewrite (bind_reads _ _ _ _ (reads_lift _ _)).
  unfold Py.setitem. rewrite length_fmap.
  case_decide; [|done].
  unfold store. by rewrite <- list_fmap_insert, layout_store_m_values.
Qed.

(** One iteration of the multiplier loop. *)
Lemma multiplier_body_run (D1_v1 : float) (i : nat) (ms : list Z) :
  multiplier_body instance_loc (length h0) (S (length h0)) D1_v1 i
    (layout ms [])
  = match pure_multiplier_body instance D1_v1 ms i with
    | Ok ms' => (Ok (), layout ms' [])
    | Raise e => (Raise e, layout ms [])
    end.
Proof.
  unfold Heap.multiplier_body, pure_multiplier_body.
  rewrite (bind_reads _ _ _ _
             (reads_list_getitem _ _ _ i (layout_sorted_items ms []))).
  rewrite (getitem_ranked_refs i), (getitem_sorted_items i),
    (getitem_sorted_items 0).
  destruct (Py.getitem ranked i) as [p|e] eqn:Hp; simpl; [|done].
  rewrite (bind_reads _ _ _ _ (reads_ranked_item ms [] i p Hp)).
  rewrite (bind_reads _ _ _ _ (reads_attr_A ms [])).
  rewrite (bind_reads _ _ _ _
             (reads_list_getitem _ _ _ 0 (layout_sorted_items ms []))).
  rewrite (getitem_ranked_refs 0).
  destruct (Py.getitem ranked 0) as [p0|e] eqn:Hp0; simpl; [|done].
  rewrite (bind_reads _ _ _ _ (reads_ranked_item ms [] 0 p0 Hp0)).
  rewrite (bind_reads _ _ _ _ (reads_lift _ _)).
  destruct (Py.truediv _ _) as [q|e]; [|done]. simpl.
  rewrite (bind_reads _ _ _ _ (reads_lift _ _)).
  destruct (Py.math_sqrt _) as [root|e]; [|done]. simpl.
  rewrite (bind_reads _ _ _ _ (reads_lift _ _)).
  destruct (Py.round _) as [k|e]; [|done]. simpl.
  apply m_values_setitem_run.
Qed.

Lemma enumerate_same_rank :
  Forall2 same_rank (Py.enumerate ranked_refs)
    (Py.enumerate (sorted_items instance)).
Proof.
  apply Forall2_same_length_lookup_2.
  - rewrite !length_enumerate. unfold Layout.ranked_refs.
    by rewrite length_fmap, length_ranked.
  - intros i e e'. rewrite !enumerate_lookup. unfold Layout.ranked_refs.
    rewrite sorted_items_ranked, !list_lookup_fmap.
    destruct (ranked !! i) as [p|] eqn:Hp; [|done].
    intros [= <-] [= <-]. exists p. by rewrite <- getitem_Ok in Hp.
Qed.

Lemma getitem_m_values (ms : list Z) (i : nat) :
  Py.getitem (VInt <$> ms) i = VInt <$> Py.getitem ms i.
Proof.
  unfold Py.getitem. rewrite list_lookup_fmap. by destruct (ms !! i).
Qed.

Lemma reads_num_term (ms : list Z) (tail : heap) (e : nat * value)
    (e' : nat * Item) :
  same_rank e e' →
  reads (num_term (S (length h0)) e) (layout ms tail)
    (pure_num_term ms e').
Proof.
  intros (p & Hp & -> & ->). unfold reads, Heap.num_term, pure_num_term.
  simpl.
  rewrite (bind_reads _ _ _ _ (reads_ranked_item ms tail _ p Hp)).
  rewrite (bind_reads _ _ _ _
             (reads_list_getitem _ _ _ e.1 (layout_m_values ms tail))).
  rewrite getitem_m_values.
  destruct (Py.getitem ms e.1) as [m|err]; simpl; [|done].
  rewrite (bind_reads _ _ _ _ (reads_as_int _ m)).
  rewrite (bind_reads _ _ _ _ (reads_lift _ _)).
  by destruct (Py.float_of_int m).
Qed.

Lemma reads_den_term (ms : list Z) (tail : heap) (e : nat * value)
    (e' : nat * Item) :
  same_rank e e' →
  reads (den_term (S (length h0)) e) (layout ms tail)
    (pure_den_term ms e').
Proof.
  intros (p & Hp & -> & ->). unfold reads, Heap.den_term, pure_den_term.
  simpl.
  rewrite (bind_reads _ _ _ _
             (reads_list_getitem _ _ _ e.1 (layout_m_values ms tail))).
  rewrite getitem_m_values.
  destruct (Py.getitem ms e.1) as [m|err]; simpl; [|done].
  rewrite (bind_reads _ _ _ _ (reads_ranked_item ms tail _ p Hp)).
  rewrite (bind_reads _ _ _ _ (reads_as_int _ m)).
  rewrite (bind_reads _ _ _ _ (reads_lift _ _)).
  by destruct (Py.float_of_int m) as [fm|err].
Qed.

Lemma results_layout_list (ms : list Z) (rows : list Row) :
  results_layout ms rows !! (length h0 + 2)%nat
  = Some (OList (row_refs rows)).
Proof.
  unfold Layout.results_layout.
  replace (length h0 + 2)%nat with (length h0 + 2 + 0)%nat by lia.
  by rewrite layout_tail.
Qed.

Lemma results_layout_dict (ms : list Z) (rows : list Row) (j : nat) :
  results_layout ms rows !! (length h0 + 3 + j)%nat
  = ODict <$> rows !! j.
Proof.
  unfold Layout.results_layout.
  replace (length h0 + 3 + j)%nat with (length h0 + 2 + S j)%nat by lia.
  by rewrite layout_tail, <- list_lookup_fmap.
Qed.

Lemma results_layout_append (ms : list Z) (rows : list Row) (row : Row) :
  <[(length h0 + 2)%nat :=
      OList (row_refs rows ++ [VRef (length (results_layout ms rows))])]>
    (results_layout ms rows ++ [ODict row])
  = results_layout ms (rows ++ [row]).
Proof.
  unfold Layout.results_layout. rewrite length_layout. unfold Layout.layout.
  rewrite <- app_assoc, insert_app_r. csimpl.
  rewrite length_fmap, fmap_app. do 4 f_equal.
  unfold Layout.row_refs. rewrite length_app. simpl.
  rewrite seq_app, fmap_app. simpl. do 4 f_equal. lia.
Qed.

(** One iteration of the loop over the ranked items. *)
Lemma result_body_run (ms : list Z) (T_star : float) (e : nat * value)
    (e' : nat * Item) (rows : list Row) :
  same_rank e e' →
  result_body instance_loc (S (length h0)) (length h0 + 2) T_star e
    (results_layout ms rows)
  = match pure_result_body instance ms T_star rows e' with
    | Ok rows' => (Ok (), results_layout ms rows')
    | Raise err => (Raise err, results_layout ms rows)
    end.
Proof.
  intros (p & Hp & -> & ->).
  unfold Heap.result_body, pure_result_body, results_layout. simpl.
  rewrite (bind_reads _ _ _ _
             (reads_list_getitem _ _ _ e.1 (layout_m_values ms _))).
  rewrite getitem_m_values.
  destruct (Py.getitem ms e.1) as [m|err]; simpl; [|done].
  rewrite (bind_reads _ _ _ _ (reads_as_int _ m)).
  rewrite (bind_reads _ _ _ _ (reads_lift _ _)).
  destruct (Py.float_of_int m) as [fm|err]; simpl; [|done].
  rewrite (bind_reads _ _ _ _ (reads_ranked_item ms _ _ p Hp)).
  rewrite (bind_reads _ _ _ _ (reads_attr_r ms _)).
  do 6 run_lift.
  erewrite bind_run by reflexivity.
  unfold list_append.
  erewrite (bind_reads _ _ _ (Ok (row_refs rows))).
  - unfold store. f_equal. apply results_layout_append.
  - apply reads_load_list, lookup_app_l_Some, results_layout_list.
Qed.

Lemma reads_row_totals (ms : list Z) (rows : list Row) :
  reads (comprehension (λ x, row ← load_dict x;
                             mret (Total_Item_Cost row)) (row_refs rows))
    (results_layout ms rows) (Ok (Total_Item_Cost <$> rows)).
Proof.
  rewrite <- comprehension_total. apply reads_comprehension.
  apply Forall2_same_length_lookup_2.
  - unfold Layout.row_refs. by rewrite length_fmap, length_seq.
  - intros j x row Hx Hrow. unfold Layout.row_refs in Hx.
    rewrite list_lookup_fmap in Hx.
    destruct (seq _ _ !! j) as [d|] eqn:Hd; [|done]. injection Hx as <-.
    apply lookup_seq in Hd as [-> _].
    apply (reads_bind _ _ _ _ (λ row, Ok (Total_Item_Cost row))
             (reads_load_dict _ _ row
                (eq_trans (results_layout_dict ms rows j)
                   (f_equal (fmap ODict) Hrow)))).
    intros ? _. apply reads_ret.
Qed.

Lemma read_rows_results (ms : list Z) (rows : list Row) :
  read_rows (results_layout ms rows) (length h0 + 2) = Some rows.
Proof.
  unfold read_rows. rewrite results_layout_list.
  apply mapM_Some_2, Forall2_same_length_lookup_2.
  - unfold Layout.row_refs. by rewrite length_fmap, length_seq.
  - intros j x row Hx Hrow. unfold Layout.row_refs in Hx.
    rewrite list_lookup_fmap in Hx.
    destruct (seq _ _ !! j) as [d|] eqn:Hd; [|done]. injection Hx as <-.
    apply lookup_seq in Hd as [-> _].
    by rewrite results_layout_dict, Hrow.
Qed.

Lemma reads_attr_items : reads (attr_items instance_loc) h0 (Ok items_loc).
Proof.
  unfold attr_items.
  apply (reads_bind _ _ _ _ (λ o, Ok items_loc)
           (reads_load _ _ _ Hinstance)).
  by intros o [= <-].
Qed.

(** The call on the heap does what the pure function does, and only
    appends to the heap. *)
Lemma find_optimal_policy_run (run : result (float * float * loc) * heap) :
  Heap.find_optimal_policy instance_loc h0 = run →
  match pure_find_optimal_policy instance with
  | Ok (T_star, total, rows) =>
      ∃ ms, run = (Ok (T_star, total, (length h0 + 2)%nat),
                   results_layout ms rows)
  | Raise e => ∃ tail, run = (Raise e, h0 ++ tail)
  end.
Proof.
  intros Hrun.
  unfold Heap.find_optimal_policy in Hrun.
  unfold pure_find_optimal_policy, calculate_m.
  rewrite (bind_reads _ _ _ _ reads_attr_items) in Hrun.
  rewrite (bind_run _ _ _ _ _ sorted_run) in Hrun.
  rewrite (bind_reads _ _ _ _
             (reads_len _ _ _ (list_lookup_middle h0 [] _ _ eq_refl)))
    in Hrun.
  erewrite bind_run in Hrun by reflexivity.
  rewrite length_app, <- app_assoc in Hrun. simpl in Hrun.
  replace (length h0 + 1)%nat with (S (length h0)) in Hrun by lia.
  rewrite <- (fmap_replicate VInt) in Hrun.
  fold (layout (replicate (length ranked_refs) 1) []) in Hrun.
  assert (length ranked_refs = length (sorted_items instance)) as Hn.
  { unfold Layout.ranked_refs. by rewrite length_fmap, length_ranked. }
  rewrite Hn in Hrun.
  set (n := length (sorted_items instance)) in *.
  rewrite (bind_reads _ _ _ _
             (reads_list_getitem _ _ _ 0 (layout_sorted_items _ [])))
    in Hrun.
  rewrite (getitem_ranked_refs 0) in Hrun.
  rewrite (getitem_sorted_items 0).
  destruct (Py.getitem ranked 0) as [p0|e] eqn:Hp0; simpl in *;
    [|by eexists].
  rewrite (bind_reads _ _ _ _ (reads_ranked_item _ [] 0 p0 Hp0)) in Hrun.
  rewrite (bind_reads _ _ _ _
             (reads_len _ _ _ (layout_sorted_items _ []))) in Hrun.
  rewrite Hn in Hrun.
  destruct (for_each_simulation
              (multiplier_body instance_loc (length h0) (S (length h0))
                 (mul (D p0.2) (v p0.2)))
              (pure_multiplier_body instance (mul (D p0.2) (v p0.2)))
              (λ ms, layout ms []) (seq 1 (n - 1)) (seq 1 (n - 1))
              (replicate n 1)) as [ms1 Hloop].
  { apply Forall_Forall2_diag, Forall_forall. intros i _ ms.
    apply multiplier_body_run. }
  destruct (Py.for_each _ _ _) as [ms|e]; simpl.
  2: { rewrite (bind_raise _ _ _ _ _ Hloop) in Hrun. by eexists. }
  rewrite (bind_run _ _ _ _ _ Hloop) in Hrun. clear Hloop ms1.
  unfold calculate_T_star, calculate_num, calculate_den.
  rewrite (bind_reads _ _ _ _ (reads_attr_A ms [])) in Hrun.
  rewrite (bind_reads _ _ _ _
             (reads_load_list _ _ _ (layout_sorted_items ms []))) in Hrun.
  rewrite (bind_reads _ _ _ _
             (reads_comprehension _ _ _ _ _
                (Forall2_impl _ _ _ _ enumerate_same_rank
                   (reads_num_term ms [])))) in Hrun.
  destruct (Py.comprehension (pure_num_term ms) _) as [num_terms|e];
    simpl; [|by eexists].
  rewrite (bind_reads _ _ _ _ (reads_attr_r ms [])) in Hrun.
  rewrite (bind_reads _ _ _ _
             (reads_comprehension _ _ _ _ _
                (Forall2_impl _ _ _ _ enumerate_same_rank
                   (reads_den_term ms [])))) in Hrun.
  destruct (Py.comprehension (pure_den_term ms) _) as [den_terms|e];
    simpl; [|by eexists].
  rewrite (bind_reads _ _ _ _ (reads_lift _ _)) in Hrun.
  destruct (Py.truediv _ _) as [q|e]; simpl; [|by eexists].
  rewrite (bind_reads _ _ _ _ (reads_lift _ _)) in Hrun.
  destruct (Py.math_sqrt q) as [T_star|e]; simpl; [|by eexists].
  erewrite bind_run in Hrun by reflexivity.
  rewrite length_layout in Hrun. simpl in Hrun.
  replace (length h0 + 2 + 0)%nat with (length h0 + 2)%nat in Hrun by lia.
  replace (layout ms [] ++ [OList []]) with (results_layout ms []) in Hrun
    by (unfold Layout.results_layout, layout; by rewrite <- app_assoc).
  destruct (for_each_simulation
              (result_body instance_loc (S (length h0)) (length h0 + 2)
                 T_star)
              (pure_result_body instance ms T_star)
              (results_layout ms) (Py.enumerate ranked_refs)
              (Py.enumerate (sorted_items instance)) [])
    as [rows1 Hloop].
  { eapply Forall2_impl; [exact enumerate_same_rank|].
    intros e e' He rows. by apply result_body_run. }
  destruct (Py.for_each _ _ _) as [rows|e]; simpl.
  2: { rewrite (bind_raise _ _ _ _ _ Hloop) in Hrun.
       unfold Layout.results_layout, layout in Hrun. by eexists. }
  rewrite (bind_run _ _ _ _ _ Hloop) in Hrun. clear Hloop rows1.
  unfold Layout.results_layout at 1 in Hrun.
  rewrite (bind_reads _ _ _ _ (reads_attr_A ms _)) in Hrun.
  fold (results_layout ms rows) in Hrun.
  rewrite (bind_reads _ _ _ _ (reads_lift _ _)) in Hrun.
  destruct (Py.truediv _ _) as [major|e]; simpl.
  2: { unfold Layout.results_layout, layout in Hrun. by eexists. }
  rewrite (bind_reads _ _ _ _
             (reads_load_list _ _ _ (results_layout_list ms rows)))
    in Hrun.
  rewrite (bind_reads _ _ _ _ (reads_row_totals ms rows)) in Hrun.
  by exists ms.
Qed.

Lemma find_optimal_policy_outcome :
  ∃ tail,
    (Heap.find_optimal_policy instance_loc h0).2 = h0 ++ tail ∧
    outcome (Heap.find_optimal_policy instance_loc h0)
    = Some (pure_find_optimal_policy instance).
Proof.
  pose proof (find_optimal_policy_run _ eq_refl) as H.
  destruct (pure_find_optimal_policy instance) as [[[T_star total] rows]|e].
  - destruct H as [ms ->]. eexists. split; [reflexivity|].
    unfold outcome. simpl. by rewrite read_rows_results.
  - destruct H as [tail ->]. by exists tail.
Qed.

End Simulation.

End HeapRun.

(** ** The caller's view of a call on the heap *)

Lemma represents_run (h : list Heap.object) (l : nat)
    (instance : JRPInstance) :
  Heap.represents h l instance →
  ∃ tail,
    (Heap.find_optimal_policy l h).2 = h ++ tail ∧
    Heap.outcome (Heap.find_optimal_policy l h)
    = Some (find_optimal_policy instance).
Proof.
  intros (items_loc & refs & Hinstance & Hlist & Hitems).
  pose proof (Forall2_length _ _ _ Hitems) as Hlen.
  apply (HeapRun.find_optimal_policy_outcome h l items_loc instance
           (zip refs (items instance))).
  - done.
  - rewrite Hlist. do 2 f_equal.
    change (λ p : nat * Item, Heap.VRef p.1) with (Heap.VRef ∘ fst (B:=Item)).
    rewrite (list_fmap_compose fst Heap.VRef), fst_zip; [done|lia].
  - rewrite snd_zip; [done|lia].
  - clear Hlen Hlist. induction Hitems; simpl; by constructor.
Qed.

Lemma represents_app (h tail : list Heap.object) (l : nat)
    (instance : JRPInstance) :
  Heap.represents h l instance → Heap.represents (h ++ tail) l instance.
Proof.
  intros (items_loc & refs & Hinstance & Hlist & Hitems).
  exists items_loc, refs. repeat split; try by apply lookup_app_l_Some.
  eapply Forall2_impl; [exact Hitems|].
  intros ref self. apply lookup_app_l_Some.
Qed.

(** ** Runs that raise *)

Lemma for_each_raises {S I} (body : S → I → result S) (range : list I)
    (i : I) (s : S) :
  i ∈ range → (∀ s', raises (body s' i)) →
  raises (Py.for_each body range s).
Proof.
  intros Hi Hbody. revert s.
  induction range as [|j range IH]; intros s; [by apply elem_of_nil in Hi|].
  simpl. destruct (body s j) as [s'|e] eqn:Hj; [|by exists e].
  simpl. apply elem_of_cons in Hi as [->|Hi]; [|by apply IH].
  destruct (Hbody s) as [e He]. congruence.
Qed.

(** The square root of an infinite ratio cannot be rounded to an integer. *)
Lemma round_sqrt_infinite_ratio (q : float) :
  raises (root ← Py.math_sqrt (mul pinf q); Py.round root).
Proof. destruct q as [[]|[]| |[] m e]; by eexists. Qed.

(** An item ranked after the first whose key is [+inf] stops the multiplier
    loop with an exception, whatever the other fields are. *)
Lemma infinite_key_raises (instance : JRPInstance) (i : nat) (item : Item) :
  sorted_items instance !! i = Some item → (1 ≤ i)%nat →
  a_over_Dv item = pinf →
  raises (find_optimal_policy instance).
Proof.
  intros Hitem Hi Hkey.
  cut (raises (calculate_m instance)).
  { intros [e He]. exists e. unfold find_optimal_policy. by rewrite He. }
  unfold calculate_m.
  destruct (Py.getitem (sorted_items instance) 0) as [item_0|e] eqn:H0;
    [|by exists e]. simpl.
  apply (for_each_raises _ _ i).
  - apply elem_of_seq. apply lookup_lt_Some in Hitem. lia.
  - intros ms. unfold multiplier_body.
    rewrite H0. apply getitem_Ok in Hitem. rewrite Hitem. simpl.
    destruct (Py.truediv _ _) as [q|e]; [|by exists e]. simpl.
    rewrite Hkey.
    destruct (round_sqrt_infinite_ratio q) as [e He].
    exists e. destruct (Py.math_sqrt (mul pinf q)) as [root|e']; simpl in *.
    + by rewrite He.
    + by injection He as ->.
Qed.

(** Every multiplier of a run that returns is at least 1. *)
Lemma multipliers_at_least_1 (instance : JRPInstance) (T_star total : float)
    (rows : list Row) :
  find_optimal_policy instance = Ok (T_star, total, rows) →
  Forall (λ row, 1 ≤ Multiplier row) rows.
Proof.
  intros (ms & major & Hm & _ & _ & _ & _ & Hrows)%find_optimal_policy_Ok.
  apply calculate_m_Ok in Hm as [_ Hm].
  apply Forall_lookup. intros i row Hrow.
  apply (Hm i). by rewrite <- Hrows, list_lookup_fmap, Hrow.
Qed.

(** ** The properties of the specification *)

(** C1, as the specification words it, fails on [tie_instance]: the solver
    returns the multiplier 3 for the item of rank 1, where
    [max(1, round(sqrt(a_over_Dv[1] * D1v1 / (A + a[0]))))] is 4.  The exact
    ratio is [600.25 * 1 / 49 = 12.25], whose root 3.5 rounds to 4; the
    solver multiplies [600.25] by the float nearest to [1 / 49] and gets a
    ratio just below 12.25. *)
Lemma C1_grouping_counterexample :
  (∃ T_star total row_0 row_1,
     find_optimal_policy tie_instance = Ok (T_star, total, [row_0; row_1]) ∧
     Multiplier row_1 = 3) ∧
  multiplier_as_written tie_instance 1 = Ok 4.
Proof.
  split; [|by vm_compute].
  do 4 eexists. split; [vm_compute; reflexivity|]. reflexivity.
Qed.

(** C1, amended: for every instance with a non-empty items list, the
    multiplier step computes, rank by rank, 1 at rank 0 and
    [max(1, round(sqrt(a_over_Dv[i] * (D1v1 / (A + a[0])))))] at every rank
    [i >= 1] -- the quotient [D1v1 / (A + a[0])] being formed, and rounded to
    a float, before the product, and [round] rounding half to even -- and
    raises what that expression first raises; when the solver returns, these
    are the multipliers of the returned rows. *)
Theorem C1_multipliers (instance : JRPInstance) :
  items instance ≠ [] →
  calculate_m instance
  = Py.comprehension (multiplier_formula instance)
      (seq 0 (length (items instance))) ∧
  ∀ T_star total rows,
    find_optimal_policy instance = Ok (T_star, total, rows) →
    (∃ row_0, rows !! 0%nat = Some row_0 ∧ Multiplier row_0 = 1) ∧
    ∀ i row, rows !! i = Some row →
             multiplier_formula instance i = Ok (Multiplier row).
Proof.
  intros Hne. split; [by apply calculate_m_formula|].
  intros T_star total rows.
  intros (ms & major & Hm & _ & Hrows & _ & _ & Hms)%find_optimal_policy_Ok.
  pose proof Hm as [Hlen Hformula]%calculate_m_Ok.
  assert (length rows = length ms) as Hlen' by by rewrite <- Hms, length_fmap.
  assert (∀ i row, rows !! i = Some row → ms !! i = Some (Multiplier row))
    as Hrow.
  { intros i row Hi. by rewrite <- Hms, list_lookup_fmap, Hi. }
  split.
  - unfold calculate_m in Hm. apply bind_Ok in Hm as (item_0 & H0 & _).
    apply getitem_Ok, lookup_lt_Some in H0.
    destruct (lookup_lt_is_Some_2 rows 0) as [row_0 Hrow_0]; [lia|].
    exists row_0. split; [done|].
    destruct (Hformula 0%nat _ (Hrow _ _ Hrow_0)) as [[= <-] _]. done.
  - intros i row Hi. by destruct (Hformula i _ (Hrow _ _ Hi)).
Qed.

(** C1 on [tie_instance], where the multipliers are 1 and 3. *)
Lemma C1_multipliers_witness :
  items tie_instance ≠ [] ∧ calculate_m tie_instance = Ok [1; 3].
Proof.
  assert (items tie_instance ≠ []) as Hne by (intros H; discriminate H).
  split; [exact Hne|].
  rewrite (proj1 (C1_multipliers tie_instance Hne)). vm_compute. reflexivity.
Defined.

(** C2: when the solver returns, the base cycle time it returns is
    [sqrt(2 * (A + Σ a[i]/m[i]) / (r * Σ m[i]*D[i]*v[i]))], both sums over the
    ranked items with the multipliers of the returned rows: one closed
    expression of the multipliers, with no search. *)
Theorem C2_base_cycle (instance : JRPInstance) (T_star total : float)
    (rows : list Row) :
  find_optimal_policy instance = Ok (T_star, total, rows) →
  T_star_formula instance (sorted_items instance) (Multiplier <$> rows)
  = Ok T_star.
Proof.
  intros (ms & major & Hm & HT & _ & _ & _ & ->)%find_optimal_policy_Ok.
  apply calculate_m_Ok in Hm as [Hlen _].
  by rewrite <- calculate_T_star_formula.
Qed.

(** C2 on the single-item scenario of the specification. *)
Lemma C2_base_cycle_witness :
  ∃ T_star total rows,
    find_optimal_policy single_item_instance = Ok (T_star, total, rows) ∧
    T_star_formula single_item_instance (sorted_items single_item_instance)
      (Multiplier <$> rows) = Ok T_star.
Proof.
  destruct (find_optimal_policy single_item_instance)
    as [[[T_star total] rows]|e] eqn:Hrun;
    [|vm_compute in Hrun; discriminate Hrun].
  exists T_star, total, rows. split; [reflexivity|].
  exact (C2_base_cycle single_item_instance T_star total rows Hrun).
Defined.

(** C3: when the solver returns, the total system cost it returns is
    [A / T_star] plus the sum of the [Total Item Cost ($)] fields of the
    returned rows, that is, of the per-item totals as already rounded to 2
    digits. *)
Theorem C3_total_system_cost (instance : JRPInstance) (T_star total : float)
    (rows : list Row) :
  find_optimal_policy instance = Ok (T_star, total, rows) →
  ∃ major,
    Py.truediv (A instance) T_star = Ok major ∧
    total = add major (Py.sum (Total_Item_Cost <$> rows)).
Proof.
  intros (ms & major & _ & _ & _ & Hmajor & Htotal & _)%find_optimal_policy_Ok.
  by exists major.
Qed.

(** C3 on the single-item scenario, where the total returned is not the
    total of the unrounded costs. *)
Lemma C3_total_system_cost_witness :
  ∃ T_star total rows,
    find_optimal_policy single_item_instance = Ok (T_star, total, rows) ∧
    (∃ major,
       Py.truediv (A single_item_instance) T_star = Ok major ∧
       total = add major (Py.sum (Total_Item_Cost <$> rows))) ∧
    unrounded_total single_item_instance T_star
      (sorted_items single_item_instance) (Multiplier <$> rows) ≠ Ok total.
Proof.
  destruct (find_optimal_policy single_item_instance)
    as [[[T_star total] rows]|e] eqn:Hrun;
    [|vm_compute in Hrun; discriminate Hrun].
  exists T_star, total, rows. split; [reflexivity|]. split.
  - exact (C3_total_system_cost single_item_instance T_star total rows Hrun).
  - vm_compute in Hrun. injection Hrun as <- <- <-.
    vm_compute. intros H. discriminate H.
Defined.

(** C4: for an instance whose setup costs [a] are numbers (finite floats,
    so that no key is a NaN and [<] orders the keys), the ranked list is a
    permutation of the items in ascending order of
    [a_over_Dv], where [a_over_Dv] is [a / (D * v)] when [D * v > 0] and
    [+inf] otherwise; items with equal keys keep their input order; and an
    item with [D * v == 0] comes after every item with a finite key,
    whatever its [a]. *)
Theorem C4_ranking (instance : JRPInstance) :
  Forall (λ item, is_finite (a item) = true) (items instance) →
  let ranked := sorted_items instance in
  ranked ≡ₚ items instance ∧
  (∀ item,
     if ltb zero (mul (D item) (v item))
     then Py.truediv (a item) (mul (D item) (v item)) = Ok (a_over_Dv item)
     else a_over_Dv item = pinf) ∧
  (∀ i j x y, (i < j)%nat → ranked !! i = Some x → ranked !! j = Some y →
              leb (a_over_Dv x) (a_over_Dv y) = true) ∧
  (∀ k, filter (λ item, eqb (a_over_Dv item) k = true) ranked
        = filter (λ item, eqb (a_over_Dv item) k = true) (items instance)) ∧
  (∀ i j b x, ranked !! i = Some b → is_zero (mul (D b) (v b)) = true →
              ranked !! j = Some x → is_finite (a_over_Dv x) = true →
              (j < i)%nat).
Proof.
  intros Hfinite ranked.
  assert (StronglySorted (key_le a_over_Dv) ranked) as Hsorted.
  { apply sorted_StronglySorted.
    eapply Forall_impl; [exact Hfinite|]. apply a_over_Dv_not_nan. }
  split; [apply sorted_Permutation|].
  split.
  { intros item.
    destruct (ltb zero (mul (D item) (v item))) eqn:Hpos.
    - by apply a_over_Dv_division.
    - unfold a_over_Dv. by rewrite Hpos. }
  split; [intros i j x y; by apply StronglySorted_lookup|].
  split; [intros k; apply sorted_stable|].
  intros i j b x Hb Hzero Hx Hfin.
  apply a_over_Dv_zero_rate in Hzero.
  destruct (decide (j < i)%nat) as [|Hge]; [done|]. exfalso.
  destruct (decide (i = j)) as [->|Hne].
  - assert (b = x) as -> by congruence. by rewrite Hzero in Hfin.
  - assert (leb (a_over_Dv b) (a_over_Dv x) = true) as Hle.
    { apply (StronglySorted_lookup a_over_Dv ranked i j); [done|lia|done..]. }
    by rewrite Hzero, FloatOrder.leb_pinf_finite in Hle.
Qed.

(** C4 on [ranking_instance]: the item without demand goes last and the two
    items of equal key stay in their order. *)
Lemma C4_ranking_witness :
  Forall (λ item, is_finite (a item) = true) (items ranking_instance) ∧
  id <$> sorted_items ranking_instance = ["X"; "Y"; "B"] ∧
  ∀ k, filter (λ item, eqb (a_over_Dv item) k = true)
         (sorted_items ranking_instance)
       = filter (λ item, eqb (a_over_Dv item) k = true)
           (items ranking_instance).
Proof.
  assert (Forall (λ item, is_finite (a item) = true) (items ranking_instance))
    as Hfinite by (repeat constructor).
  split; [exact Hfinite|]. split; [reflexivity|].
  exact (proj1 (proj2 (proj2 (proj2 (C4_ranking ranking_instance Hfinite))))).
Defined.

(** C5: when the solver returns, the row at each rank [i] belongs to the
    item ranked [i]: with [Ti = m[i] * T_star] unrounded, it holds [Ti]
    rounded to 5 digits, the setup cost [a[i] / Ti] and the holding cost
    [D[i] * Ti * v[i] * r / 2] each rounded to 2 digits, and the sum of the
    two unrounded costs rounded to 2 digits. *)
Theorem C5_item_records (instance : JRPInstance) (T_star total : float)
    (rows : list Row) :
  find_optimal_policy instance = Ok (T_star, total, rows) →
  ∀ i row, rows !! i = Some row →
    ∃ item, sorted_items instance !! i = Some item ∧
            policy_result instance T_star item (Multiplier row) row.
Proof.
  intros (ms & major & _ & _ & Hrows & _)%find_optimal_policy_Ok i row Hrow.
  apply item_results_Ok in Hrows as [_ Hrows].
  destruct (Hrows i row Hrow) as (item & m & Hitem & _ & Hresult).
  exists item. split; [done|].
  assert (Multiplier row = m) as ->; [|done].
  by destruct Hresult as (? & ? & ? & _ & _ & _ & _ & ? & _).
Qed.

(** C5 on [tie_instance]. *)
Lemma C5_item_records_witness :
  ∃ T_star total rows,
    find_optimal_policy tie_instance = Ok (T_star, total, rows) ∧
    ∀ i row, rows !! i = Some row →
      ∃ item, sorted_items tie_instance !! i = Some item ∧
              policy_result tie_instance T_star item (Multiplier row) row.
Proof.
  destruct (find_optimal_policy tie_instance) as [[[T_star total] rows]|e]
    eqn:Hrun; [|vm_compute in Hrun; discriminate Hrun].
  exists T_star, total, rows. split; [reflexivity|].
  exact (C5_item_records tie_instance T_star total rows Hrun).
Defined.

(** C6 fails on the two-item scenario of the specification: with item B
    of demand 0 ranked after item X, the loop over the ranks reaches
    [round(math.sqrt(inf))], and the call ends with an [OverflowError]
    instead of returning. *)
Theorem C6_zero_demand_item_raises :
  find_optimal_policy zero_demand_instance = Raise OverflowError.
Proof. by vm_compute. Qed.

(** C7, as the specification words it, fails on the empty instance: the
    solver raises an [IndexError] at [sorted_items[0]]. *)
Lemma C7_empty_instance_counterexample :
  find_optimal_policy empty_instance = Raise IndexError.
Proof. by vm_compute. Qed.

(** C7, amended: a malformed instance can make the solver raise instead
    of returning.  An empty [items] list raises an [IndexError]; with two
    or more items, [A + a[0] == 0] raises a [ZeroDivisionError] in the first
    iteration of the multiplier loop; and when the multiplier step and the
    two sums complete, a zero denominator [r * Σ m[i]*D[i]*v[i]] raises a
    [ZeroDivisionError], and a quotient below zero under the square root
    raises a [ValueError]. *)
Theorem C7_malformed_instances (instance : JRPInstance) :
  (items instance = [] → find_optimal_policy instance = Raise IndexError) ∧
  (∀ item_0,
     sorted_items instance !! 0%nat = Some item_0 →
     (2 ≤ length (items instance))%nat →
     is_zero (add (A instance) (a item_0)) = true →
     find_optimal_policy instance = Raise ZeroDivisionError) ∧
  (∀ ms num den,
     calculate_m instance = Ok ms →
     calculate_num instance ms = Ok num →
     calculate_den instance ms = Ok den →
     (is_zero den = true →
      find_optimal_policy instance = Raise ZeroDivisionError) ∧
     (is_zero den = false → ltb (div num den) zero = true →
      find_optimal_policy instance = Raise ValueError)).
Proof.
  split; [|split].
  - intros Hempty. unfold find_optimal_policy, calculate_m, sorted_items.
    by rewrite Hempty.
  - intros item_0 H0 Hlen Hzero.
    unfold find_optimal_policy, calculate_m.
    apply getitem_Ok in H0. rewrite H0. simpl.
    assert (length (sorted_items instance) = length (items instance)) as Hn
      by apply length_sorted.
    destruct (lookup_lt_is_Some_2 (sorted_items instance) 1) as [item_1 H1];
      [lia|].
    destruct (length (sorted_items instance)) as [|[|n]] eqn:Hn'; [lia..|].
    apply getitem_Ok in H1.
    assert (∀ ms, multiplier_body instance (mul (D item_0) (v item_0)) ms 1
                  = Raise ZeroDivisionError) as Hbody.
    { intros ms. unfold multiplier_body. rewrite H1, H0. simpl.
      unfold Py.truediv. by rewrite Hzero. }
    simpl. by rewrite Hbody.
  - intros ms num den Hm Hnum Hden.
    unfold find_optimal_policy, calculate_T_star.
    rewrite Hm. simpl. rewrite Hnum. simpl. rewrite Hden. simpl.
    split.
    + intros Hzero.
      assert (Py.truediv num den = Raise ZeroDivisionError) as ->; [|done].
      unfold Py.truediv. by rewrite Hzero.
    + intros Hzero Hneg.
      assert (Py.truediv num den = Ok (div num den)) as ->.
      { unfold Py.truediv. by rewrite Hzero. }
      simpl.
      assert (Py.math_sqrt (div num den) = Raise ValueError) as ->; [|done].
      unfold Py.math_sqrt.
      by destruct (div num den) as [[]|[]| |[] m e].
Qed.

(** C7 on four malformed instances: no item, [A + a[0] == 0], [r == 0] and
    [r < 0]. *)
Lemma C7_malformed_instances_witness :
  find_optimal_policy empty_instance = Raise IndexError ∧
  find_optimal_policy zero_setup_instance = Raise ZeroDivisionError ∧
  find_optimal_policy zero_rate_instance = Raise ZeroDivisionError ∧
  find_optimal_policy negative_rate_instance = Raise ValueError.
Proof.
  split; [|split; [|split]].
  - apply (proj1 (C7_malformed_instances empty_instance)). reflexivity.
  - eapply (proj1 (proj2 (C7_malformed_instances zero_setup_instance))).
    + vm_compute. reflexivity.
    + simpl. lia.
    + vm_compute. reflexivity.
  - eapply (proj2 (proj2 (C7_malformed_instances zero_rate_instance))).
    + vm_compute. reflexivity.
    + vm_compute. reflexivity.
    + vm_compute. reflexivity.
    + vm_compute. reflexivity.
  - eapply (proj2 (proj2 (C7_malformed_instances negative_rate_instance))).
    + vm_compute. reflexivity.
    + vm_compute. reflexivity.
    + vm_compute. reflexivity.
    + vm_compute. reflexivity.
    + vm_compute. reflexivity.
Defined.

(** C8: the solver keeps no state between calls.  Called on a heap that
    holds an instance, it hands the caller exactly what the pure function
    computes from the instance's value; called again on the heap the first
    call left behind, it hands back the same: the same exception, or the
    same [T_star], the same total and the same rows in the same order. *)
Theorem C8_deterministic (h : list Heap.object) (l : nat)
    (instance : JRPInstance) :
  Heap.represents h l instance →
  let first := Heap.find_optimal_policy l h in
  let second := Heap.find_optimal_policy l first.2 in
  Heap.outcome first = Some (find_optimal_policy instance) ∧
  Heap.outcome second = Heap.outcome first.
Proof.
  intros Hh first second.
  destruct (represents_run h l instance Hh) as (tail & Htail & Hfirst).
  assert (Heap.represents first.2 l instance) as Hh'.
  { unfold first. rewrite Htail. by apply represents_app. }
  destruct (represents_run first.2 l instance Hh') as (_ & _ & Hsecond).
  split; [done|]. unfold second. by rewrite Hsecond.
Qed.

(** C8 on [tie_heap]. *)
Lemma C8_deterministic_witness :
  Heap.represents tie_heap 3 tie_instance ∧
  Heap.outcome (Heap.find_optimal_policy 3 tie_heap)
  = Some (find_optimal_policy tie_instance) ∧
  Heap.outcome
    (Heap.find_optimal_policy 3 (Heap.find_optimal_policy 3 tie_heap).2)
  = Heap.outcome (Heap.find_optimal_policy 3 tie_heap).
Proof.
  assert (Heap.represents tie_heap 3 tie_instance) as Hh.
  { exists 2%nat, [0; 1]%nat. repeat split; repeat constructor. }
  split; [exact Hh|].
  exact (C8_deterministic tie_heap 3 tie_instance Hh).
Defined.

(** C9: a call changes nothing that the caller owns.  The heap after the
    call is the heap before it followed by the objects the call allocated,
    so every object that existed is unchanged, and the instance read back
    is the same: its fields, and its items list with the same length, the
    same order and the same [id], [a], [D], [v] of every item. *)
Theorem C9_input_unchanged (h : list Heap.object) (l : nat)
    (instance : JRPInstance) :
  Heap.represents h l instance →
  let after := (Heap.find_optimal_policy l h).2 in
  (∃ allocated, after = h ++ allocated) ∧
  (∀ l' o, h !! l' = Some o → after !! l' = Some o) ∧
  Heap.represents after l instance.
Proof.
  intros Hh after.
  destruct (represents_run h l instance Hh) as (tail & Htail & _).
  unfold after. rewrite Htail. split; [by exists tail|]. split.
  - intros l' o. apply lookup_app_l_Some.
  - by apply represents_app.
Qed.

(** C9 on [tie_heap]. *)
Lemma C9_input_unchanged_witness :
  Heap.represents tie_heap 3 tie_instance ∧
  Heap.represents (Heap.find_optimal_policy 3 tie_heap).2 3 tie_instance.
Proof.
  assert (Heap.represents tie_heap 3 tie_instance) as Hh.
  { exists 2%nat, [0; 1]%nat. repeat split; repeat constructor. }
  split; [exact Hh|].
  exact (proj2 (proj2 (C9_input_unchanged tie_heap 3 tie_instance Hh))).
Defined.

(** C10: when the solver returns, there is exactly one row per input item:
    as many rows as items, the row at each rank carrying the [id] of the
    item of that rank, and the identifiers of the rows being those of the
    input items, duplicates included. *)
Theorem C10_one_row_per_item (instance : JRPInstance) (T_star total : float)
    (rows : list Row) :
  find_optimal_policy instance = Ok (T_star, total, rows) →
  length rows = length (items instance) ∧
  ID <$> rows = id <$> sorted_items instance ∧
  ID <$> rows ≡ₚ id <$> items instance.
Proof.
  intros (ms & major & _ & _ & Hrows & _)%find_optimal_policy_Ok.
  apply item_results_Ok in Hrows as [Hlen Hrows].
  assert (ID <$> rows = id <$> sorted_items instance) as Hids.
  { apply list_eq_same_length with (length rows);
      [by rewrite length_fmap|by rewrite length_fmap|].
    intros i x y _ Hx Hy.
    rewrite list_lookup_fmap in Hx. rewrite list_lookup_fmap in Hy.
    destruct (rows !! i) as [row|] eqn:Hrow; [|done]. injection Hx as <-.
    destruct (Hrows i row Hrow) as (item & m & Hitem & _ & Hresult).
    rewrite Hitem in Hy. injection Hy as <-.
    by destruct Hresult as (? & ? & ? & _ & _ & _ & ? & _). }
  split; [|split; [done|]].
  - rewrite Hlen. apply length_sorted.
  - rewrite Hids. unfold sorted_items. by rewrite sorted_Permutation.
Qed.

(** C10 on [tie_instance]. *)
Lemma C10_one_row_per_item_witness :
  ∃ T_star total rows,
    find_optimal_policy tie_instance = Ok (T_star, total, rows) ∧
    length rows = length (items tie_instance) ∧
    ID <$> rows = id <$> sorted_items tie_instance ∧
    ID <$> rows ≡ₚ id <$> items tie_instance.
Proof.
  destruct (find_optimal_policy tie_instance) as [[[T_star total] rows]|e]
    eqn:Hrun; [|vm_compute in Hrun; discriminate Hrun].
  exists T_star, total, rows. split; [reflexivity|].
  exact (C10_one_row_per_item tie_instance T_star total rows Hrun).
Defined.

(** * Further properties of the code *)

(** ** The exceptions of a run *)

Lemma bind_Raise {A B} (m : result A) (f : A → result B) (e : exn) :
  m ≫= f = Raise e ↔ m = Raise e ∨ ∃ x, m = Ok x ∧ f x = Raise e.
Proof.
  destruct m as [x|e']; simpl; split.
  - intros H. right. by exists x.
  - by intros [[=]|(x' & [= ->] & H)].
  - intros [= ->]. by left.
  - by intros [[= ->]|(x' & [=] & _)].
Qed.

Lemma truediv_Raise (x y : float) (e : exn) :
  Py.truediv x y = Raise e → e = ZeroDivisionError ∧ is_zero y = true.
Proof. unfold Py.truediv. destruct (is_zero y); by intros [=]. Qed.

Lemma truediv_Ok (x y q : float) :
  Py.truediv x y = Ok q → is_zero y = false ∧ q = div x y.
Proof. unfold Py.truediv. destruct (is_zero y); by intros [= <-]. Qed.

Lemma math_sqrt_Raise (x : float) (e : exn) :
  Py.math_sqrt x = Raise e → e = ValueError.
Proof. unfold Py.math_sqrt. case_match; by intros [=]. Qed.

Lemma round_Raise (x : float) (e : exn) :
  Py.round x = Raise e → e = ValueError ∨ e = OverflowError.
Proof. destruct x; intros [=]; auto. Qed.

Lemma round_ndigits_Raise (x : float) (n : Z) (e : exn) :
  Py.round_ndigits x n = Raise e → e = OverflowError.
Proof.
  unfold Py.round_ndigits. destruct x; try done. case_match; by intros [=].
Qed.

Lemma float_of_int_Raise (n : Z) (e : exn) :
  Py.float_of_int n = Raise e → e = OverflowError.
Proof. unfold Py.float_of_int. case_match; by intros [=]. Qed.

Lemma getitem_Raise {A} (l : list A) (i : nat) (e : exn) :
  Py.getitem l i = Raise e → (length l ≤ i)%nat.
Proof.
  unfold Py.getitem. destruct (l !! i) eqn:H; [done|].
  intros _. by apply lookup_ge_None.
Qed.

(** A comprehension or a loop raises what one of its elements raises. *)
Lemma comprehension_Raise {A B} (f : A → result B) (l : list A) (e : exn) :
  Py.comprehension f l = Raise e → ∃ x, x ∈ l ∧ f x = Raise e.
Proof.
  induction l as [|x l IH]; simpl; [done|].
  intros [H|(y & Hy & H)]%bind_Raise.
  - exists x. split; [by left|done].
  - apply bind_Raise in H as [H|(ys & _ & [=])].
    destruct (IH H) as (x' & Hin & Hx'). exists x'. split; [by right|done].
Qed.

Lemma for_each_Raise {S I} (body : S → I → result S) (l : list I) (s : S)
    (e : exn) :
  Py.for_each body l s = Raise e → ∃ i s', i ∈ l ∧ body s' i = Raise e.
Proof.
  revert s. induction l as [|i l IH]; intros s; simpl; [done|].
  intros [H|(s' & _ & H)]%bind_Raise.
  - exists i, s. split; [by left|done].
  - destruct (IH _ H) as (i' & s'' & Hin & Hi'). exists i', s''.
    split; [by right|done].
Qed.

Lemma elem_of_enumerate {A} (l : list A) (e : nat * A) :
  e ∈ Py.enumerate l → l !! e.1 = Some e.2.
Proof.
  intros [i Hi]%list_elem_of_lookup_1. rewrite enumerate_lookup in Hi.
  destruct (l !! i) eqn:Hl; [|done]. by injection Hi as <-.
Qed.

Ltac inv_raise :=
  repeat match goal with
    | H : _ ≫= _ = Raise _ |- _ =>
        let x := fresh "x" in
        let E := fresh "E" in
        apply bind_Raise in H; destruct H as [H|(x & E & H)]
    end.

(** The numeric builtins raise no [IndexError]. *)
Ltac not_index_error :=
  match goal with
  | H : Py.truediv _ _ = Raise _ |- _ => by apply truediv_Raise in H as [? _]
  | H : Py.math_sqrt _ = Raise _ |- _ => by apply math_sqrt_Raise in H
  | H : Py.round _ = Raise _ |- _ => by apply round_Raise in H as [?|?]
  | H : Py.round_ndigits _ _ = Raise _ |- _ =>
      by apply round_ndigits_Raise in H
  | H : Py.float_of_int _ = Raise _ |- _ => by apply float_of_int_Raise in H
  | H : Ok _ = Raise _ |- _ => discriminate H
  end.

Section IndexError.

Variable instance : JRPInstance.
Hypothesis Hne : items instance ≠ [].

Lemma multiplier_formula_in_range (i : nat) :
  (i < length (sorted_items instance))%nat →
  multiplier_formula instance i ≠ Raise IndexError.
Proof.
  intros Hi H. destruct i as [|i]; [done|]. simpl in H.
  inv_raise; try not_index_error.
  - apply getitem_Raise in H. lia.
  - apply getitem_Raise in H. lia.
Qed.

Lemma calculate_m_in_range : calculate_m instance ≠ Raise IndexError.
Proof.
  rewrite calculate_m_formula by done.
  intros (i & Hi & H)%comprehension_Raise.
  apply elem_of_seq in Hi. apply (multiplier_formula_in_range i); [|done].
  unfold sorted_items. rewrite length_sorted. lia.
Qed.

Lemma calculate_T_star_in_range (ms : list Z) :
  length ms = length (sorted_items instance) →
  calculate_T_star instance ms ≠ Raise IndexError.
Proof.
  intros Hlen. rewrite calculate_T_star_formula by done.
  unfold T_star_formula. intros H. inv_raise; try not_index_error.
  - apply comprehension_Raise in H as (e & _ & H).
    inv_raise; not_index_error.
  - apply comprehension_Raise in H as (e & _ & H).
    inv_raise; not_index_error.
Qed.

Lemma result_loop_in_range (ms : list Z) (T_star : float) :
  length ms = length (sorted_items instance) →
  Py.for_each (result_body instance ms T_star)
    (Py.enumerate (sorted_items instance)) [] ≠ Raise IndexError.
Proof.
  intros Hlen (e & rows & He & H)%for_each_Raise.
  apply elem_of_enumerate, lookup_lt_Some in He.
  unfold result_body in H. inv_raise; try not_index_error.
  apply getitem_Raise in H. lia.
Qed.

End IndexError.

(** X1: [find_optimal_policy] raises an [IndexError] exactly when the items
    list is empty.  With one item or more, every index the solver uses
    ([sorted_items[0]], [sorted_items[i]], [m_values[i]]) is in range, so
    whatever the call raises then is not an [IndexError]. *)
Theorem X1_index_error_iff_empty (instance : JRPInstance) :
  find_optimal_policy instance = Raise IndexError ↔ items instance = [].
Proof.
  split.
  - intros H. destruct (decide (items instance = [])) as [|Hne]; [done|].
    exfalso. unfold find_optimal_policy in H.
    apply bind_Raise in H as [H|(ms & Hm & H)];
      [by apply calculate_m_in_range in H|].
    apply calculate_m_Ok in Hm as [Hlen _].
    apply bind_Raise in H as [H|(T_star & _ & H)];
      [by apply calculate_T_star_in_range in H|].
    apply bind_Raise in H as [H|(rows & _ & H)];
      [by apply result_loop_in_range in H|].
    inv_raise; not_index_error.
  - intros Hempty. unfold find_optimal_policy, calculate_m, sorted_items.
    by rewrite Hempty.
Qed.

(** ** Signs *)

Module FloatSign.

(** Rounding keeps the sign it is given. *)
Lemma binary_round_aux_sign (s : bool) (m e : Z) (l : location) :
  0 ≤ m →
  match binary_round_aux prec emax s m e l with
  | S754_zero s' | S754_infinity s' | S754_finite s' _ _ => s' = s
  | S754_nan => False
  end.
Proof.
  intros Hm. unfold binary_round_aux.
  pose proof (FloatRounding.shr_fexp_nonneg m e l Hm) as H1.
  destruct (shr_fexp prec emax m e l) as [mrs1 e1]. simpl in H1.
  pose proof (FloatRounding.shr_fexp_nonneg
                (round_nearest_even (shr_m mrs1) (loc_of_shr_record mrs1))
                e1 loc_Exact
                (FloatRounding.round_nearest_even_nonneg _ _ H1)) as H2.
  destruct (shr_fexp prec emax _ e1 loc_Exact) as [mrs2 e2]. simpl in H2.
  destruct (shr_m mrs2); [done| |lia].
  by destruct (e2 <=? emax - prec).
Qed.

Lemma binary_round_aux_not_negative (m e : Z) (l : location) :
  0 ≤ m → not_negative (binary_round_aux prec emax false m e l) = true.
Proof.
  intros Hm. pose proof (binary_round_aux_sign false m e l Hm) as H.
  destruct (binary_round_aux prec emax false m e l) as [| | |[]]; try done.
  by subst.
Qed.

Lemma binary_round_not_negative (m : positive) (e : Z) :
  not_negative (binary_round prec emax false m e) = true.
Proof.
  unfold binary_round. destruct (shl_align _ _ _) as [mz ez].
  by apply binary_round_aux_not_negative.
Qed.

Lemma mul_not_negative (x y : float) :
  not_negative x = true → not_negative y = true →
  not_negative (mul x y) = true.
Proof.
  destruct x as [sx|[]| |[] mx ex], y as [sy|[]| |[] my ey]; try done.
  intros _ _. by apply binary_round_aux_not_negative.
Qed.

Lemma div_core_nonneg (m1 e1 m2 e2 : Z) :
  0 ≤ m1 → 0 < m2 → 0 ≤ (SFdiv_core_binary prec emax m1 e1 m2 e2).1.1.
Proof.
  intros H1 H2. unfold SFdiv_core_binary.
  set (m' := match _ - _ - _ with Z.pos _ => _ | Z0 => _ | _ => _ end).
  assert (0 ≤ m') as Hm'.
  { unfold m'. destruct (_ - _ - _); [lia| |lia].
    apply Z.shiftl_nonneg. lia. }
  pose proof (Z.div_pos m' m2 Hm' H2) as Hq.
  unfold Z.div in Hq. by destruct (Z.div_eucl m' m2) as [q rem].
Qed.

(** The quotient by a divisor that is not zero. *)
Lemma div_not_negative (x y : float) :
  not_negative x = true → not_negative y = true → is_zero y = false →
  not_negative (div x y) = true.
Proof.
  destruct x as [sx|[]| |[] mx ex], y as [sy|[]| |[] my ey]; try done.
  intros _ _ _. unfold div, SFdiv.
  pose proof (div_core_nonneg (Z.pos mx) ex (Z.pos my) ey) as H.
  destruct (SFdiv_core_binary _ _ _ _ _ _) as [[mz ez] lz].
  apply binary_round_aux_not_negative, H; lia.
Qed.

Lemma add_not_negative (x y : float) :
  not_negative x = true → not_negative y = true →
  not_negative (add x y) = true.
Proof.
  destruct x as [[]|[]| |[] mx ex], y as [[]|[]| |[] my ey]; try done.
  intros _ _. unfold add, SFadd. simpl.
  apply binary_round_not_negative.
Qed.

Lemma sqrt_not_negative (x : float) : not_negative (sqrt x) = true.
Proof.
  destruct x as [[]|[]| |[] m e]; try done.
  unfold sqrt, SFsqrt.
  assert (0 ≤ (SFsqrt_core_binary prec emax (Z.pos m) e).1.1) as H.
  { unfold SFsqrt_core_binary.
    set (m' := match _ - _ with Z.pos _ => _ | Z0 => _ | _ => _ end).
    pose proof (Z.sqrtrem_spec m') as Hs.
    assert (0 ≤ m') as Hm'.
    { unfold m'. destruct (_ - _); [lia| |lia].
      apply Z.shiftl_nonneg. lia. }
    specialize (Hs Hm').
    destruct (Z.sqrtrem m') as [q rem]. simpl. lia. }
  destruct (SFsqrt_core_binary _ _ _ _) as [[mz ez] lz].
  by apply binary_round_aux_not_negative.
Qed.

Lemma of_Z_not_negative (n : Z) : 0 ≤ n → not_negative (of_Z n) = true.
Proof.
  destruct n as [|p|p]; [done| |lia]. intros _.
  apply binary_round_not_negative.
Qed.

Lemma of_Z_not_nan (n : Z) : is_nan (of_Z n) = false.
Proof.
  destruct n as [|p|p]; [done| |]; unfold of_Z, binary_normalize, binary_round;
    destruct (shl_align _ _ _) as [mz ez];
    by apply FloatRounding.binary_round_aux_not_nan.
Qed.

Lemma sum_not_negative (l : list float) :
  Forall (λ x, not_negative x = true) l → not_negative (Py.sum l) = true.
Proof.
  unfold Py.sum. generalize (of_Z_not_negative 0 (Z.le_refl 0)).
  generalize (of_Z 0). intros s Hs Hl. revert s Hs.
  induction Hl as [|x l Hx Hl IH]; intros s Hs; simpl; [done|].
  by apply IH, add_not_negative.
Qed.

Lemma math_sqrt_not_negative (x t : float) :
  Py.math_sqrt x = Ok t → not_negative t = true.
Proof.
  unfold Py.math_sqrt. case_match; [done|]. intros [= <-].
  apply sqrt_not_negative.
Qed.

Lemma round_ndigits_not_negative (x y : float) (n : Z) :
  not_negative x = true → Py.round_ndigits x n = Ok y →
  not_negative y = true.
Proof.
  unfold Py.round_ndigits. destruct x as [sx|sx| |sx m e];
    try by intros ? [= <-].
  intros Hx. destruct sx; [done|]. clear Hx. cbv zeta.
  set (r := match Py.scaled_round m e (10 ^ n) with
            | Z0 => _ | Zpos _ => _ | Zneg _ => _ end).
  assert (not_negative r = true) as Hr.
  { unfold r. destruct (Py.scaled_round m e (10 ^ n)); [done| |done].
    by apply div_not_negative. }
  destruct (is_inf r); [done|]. by intros [= <-].
Qed.

(** [float(n)], when it does not raise, is a finite float. *)
Lemma float_of_int_finite (n : Z) (x : float) :
  Py.float_of_int n = Ok x → is_finite x = true.
Proof.
  unfold Py.float_of_int. pose proof (of_Z_not_nan n) as Hn.
  destruct (of_Z n); simpl in *; try done; by intros [= <-].
Qed.

Lemma mul_zero (x y : float) :
  is_finite x = true → is_zero y = true → is_zero (mul x y) = true.
Proof. by destruct x as [| | |], y as [| | |]. Qed.

End FloatSign.

(** X2: the ranking key [a_over_Dv] of an item whose setup cost [a] is a
    finite float is never a NaN, whatever [D] and [v] are; and when [a] is
    not negative, the key is not negative either (it is a zero, a positive
    number or [+inf]). *)
Theorem X2_ranking_key (self : Item) :
  is_finite (a self) = true →
  is_nan (a_over_Dv self) = false ∧
  (not_negative (a self) = true → not_negative (a_over_Dv self) = true).
Proof.
  intros Ha. split; [by apply a_over_Dv_not_nan|].
  intros Hsign. unfold a_over_Dv.
  destruct (ltb zero (mul (D self) (v self))) eqn:Hpos; [|done].
  apply FloatSign.div_not_negative; [done|..];
    by destruct (mul (D self) (v self)) as [|[]| |[]].
Qed.

(** X2 on an item without demand and on an item with demand. *)
Lemma X2_ranking_key_witness :
  is_nan (a_over_Dv {| id := "B"; a := of_Z 5; D := of_Z 0; v := of_Z 10 |})
  = false ∧
  not_negative
    (a_over_Dv {| id := "X"; a := of_Z 50; D := of_Z 1000; v := of_Z 10 |})
  = true.
Proof.
  split.
  - apply (X2_ranking_key
             {| id := "B"; a := of_Z 5; D := of_Z 0; v := of_Z 10 |}).
    reflexivity.
  - apply (X2_ranking_key
             {| id := "X"; a := of_Z 50; D := of_Z 1000; v := of_Z 10 |});
      reflexivity.
Defined.

Lemma T_star_not_negative (instance : JRPInstance) (ms : list Z)
    (T_star : float) :
  calculate_T_star instance ms = Ok T_star → not_negative T_star = true.
Proof.
  unfold calculate_T_star. intros HT. inv_ok.
  by apply FloatSign.math_sqrt_not_negative in HT.
Qed.

(** X3: when the solver returns, the base cycle [T_star] is a NaN or
    greater than zero (possibly [+inf]): never zero and never negative.  A
    zero [T_star] would make [Ti = m * T_star] zero, and [item.a / ti]
    raises in the loop over the items before [A / T_star] is reached. *)
Theorem X3_base_cycle_positive (instance : JRPInstance) (T_star total : float)
    (rows : list Row) :
  find_optimal_policy instance = Ok (T_star, total, rows) →
  is_nan T_star = true ∨ ltb zero T_star = true.
Proof.
  intros (ms & major & Hm & HT & Hrows & _)%find_optimal_policy_Ok.
  apply T_star_not_negative in HT.
  assert (is_zero T_star = false) as Hzero.
  { unfold calculate_m in Hm. apply bind_Ok in Hm as (item_0 & H0 & _).
    apply getitem_Ok in H0.
    destruct (sorted_items instance) as [|item l]; [done|].
    simpl in Hrows. apply bind_Ok in Hrows as (rows' & Hbody & _).
    unfold result_body in Hbody. inv_ok.
    apply FloatSign.float_of_int_finite in E0.
    apply truediv_Ok in E2 as [Hti _].
    destruct (is_zero T_star) eqn:Hz; [|done].
    by rewrite FloatSign.mul_zero in Hti. }
  destruct T_star as [s|[]| |[] m e]; try done; auto.
Qed.

(** X3 on the single-item scenario of the specification. *)
Lemma X3_base_cycle_positive_witness :
  ∃ T_star total rows,
    find_optimal_policy single_item_instance = Ok (T_star, total, rows) ∧
    (is_nan T_star = true ∨ ltb zero T_star = true).
Proof.
  destruct (find_optimal_policy single_item_instance)
    as [[[T_star total] rows]|e] eqn:Hrun;
    [|vm_compute in Hrun; discriminate Hrun].
  exists T_star, total, rows. split; [reflexivity|].
  exact (X3_base_cycle_positive single_item_instance T_star total rows Hrun).
Defined.

(** X4: when the solver returns, every multiplier in the returned rows is
    an integer of at least 1: [m_values] starts as a list of ones and the
    loop only writes [max(1, ...)]. *)
Theorem X4_multipliers_at_least_1 (instance : JRPInstance)
    (T_star total : float) (rows : list Row) :
  find_optimal_policy instance = Ok (T_star, total, rows) →
  Forall (λ row, 1 ≤ Multiplier row) rows.
Proof. apply multipliers_at_least_1. Qed.

(** X4 on [tie_instance]. *)
Lemma X4_multipliers_at_least_1_witness :
  ∃ T_star total rows,
    find_optimal_policy tie_instance = Ok (T_star, total, rows) ∧
    Forall (λ row, 1 ≤ Multiplier row) rows.
Proof.
  destruct (find_optimal_policy tie_instance) as [[[T_star total] rows]|e]
    eqn:Hrun; [|vm_compute in Hrun; discriminate Hrun].
  exists T_star, total, rows. split; [reflexivity|].
  exact (X4_multipliers_at_least_1 tie_instance T_star total rows Hrun).
Defined.

Lemma policy_result_not_negative (instance : JRPInstance) (T_star : float)
    (item : Item) (m : Z) (row : Row) :
  not_negative (r instance) = true →
  not_negative (a item) = true → not_negative (D item) = true →
  not_negative (v item) = true →
  not_negative T_star = true → 1 ≤ m →
  policy_result instance T_star item m row →
  not_negative (Individual_Cycle row) = true ∧
  not_negative (Setup_Cost row) = true ∧
  not_negative (Holding_Cost row) = true ∧
  not_negative (Total_Item_Cost row) = true.
Proof.
  intros Hr Ha HD Hv HT Hm (fm & h_cost & s_cost & Hp). cbv zeta in Hp.
  destruct Hp as (Hfm & Hh & Hs & _ & _ & Hti5 & Hs2 & Hh2 & Ht2).
  assert (not_negative fm = true) as Hfm'.
  { unfold Py.float_of_int in Hfm. case_match; [done|].
    injection Hfm as <-. apply FloatSign.of_Z_not_negative. lia. }
  assert (not_negative (mul fm T_star) = true) as Hti
    by by apply FloatSign.mul_not_negative.
  apply truediv_Ok in Hh as [Hz2 ->], Hs as [Hzti ->].
  assert (not_negative (div (a item) (mul fm T_star)) = true) as Hs'
    by by apply FloatSign.div_not_negative.
  assert (not_negative
            (div (mul (mul (mul (D item) (mul fm T_star)) (v item))
                    (r instance)) (of_Z 2)) = true) as Hh'.
  { apply FloatSign.div_not_negative; [|done..].
    by repeat apply FloatSign.mul_not_negative. }
  split; [exact (FloatSign.round_ndigits_not_negative _ _ _ Hti Hti5)|].
  split; [exact (FloatSign.round_ndigits_not_negative _ _ _ Hs' Hs2)|].
  split; [exact (FloatSign.round_ndigits_not_negative _ _ _ Hh' Hh2)|].
  exact (FloatSign.round_ndigits_not_negative _ _ _
           (FloatSign.add_not_negative _ _ Hs' Hh') Ht2).
Qed.

(** X5: no negative number is reported for an instance without a negative
    number.  If [r] and every item's [a], [D] and [v] are not below zero,
    then in every returned row the cycle time, the setup cost, the holding
    cost and the total item cost are not below zero (each is a NaN, a zero,
    a positive number or [+inf]); and if [A] is not below zero either, nor
    is the total system cost. *)
Theorem X5_costs_not_negative (instance : JRPInstance) (T_star total : float)
    (rows : list Row) :
  not_negative (r instance) = true →
  Forall (λ item, not_negative (a item) = true ∧
                  not_negative (D item) = true ∧
                  not_negative (v item) = true) (items instance) →
  find_optimal_policy instance = Ok (T_star, total, rows) →
  Forall (λ row, not_negative (Individual_Cycle row) = true ∧
                 not_negative (Setup_Cost row) = true ∧
                 not_negative (Holding_Cost row) = true ∧
                 not_negative (Total_Item_Cost row) = true) rows ∧
  (not_negative (A instance) = true → not_negative total = true).
Proof.
  intros Hr Hitems Hrun.
  pose proof Hrun
    as (ms & major & Hm & HT & Hrows & Hmajor & -> & Hms)%find_optimal_policy_Ok.
  apply T_star_not_negative in HT.
  apply calculate_m_Ok in Hm as [_ Hm].
  apply item_results_Ok in Hrows as [_ Hrows].
  assert (Forall (λ row, not_negative (Individual_Cycle row) = true ∧
                 not_negative (Setup_Cost row) = true ∧
                 not_negative (Holding_Cost row) = true ∧
                 not_negative (Total_Item_Cost row) = true) rows) as Hall.
  { apply Forall_lookup. intros i row Hrow.
    destruct (Hrows i row Hrow) as (item & m & Hitem & Hmi & Hp).
    assert (item ∈ items instance) as Hin.
    { rewrite <- (sorted_Permutation a_over_Dv).
      by eapply list_elem_of_lookup_2. }
    rewrite Forall_forall in Hitems.
    destruct (Hitems item Hin) as (Ha & HD & Hv).
    apply (policy_result_not_negative instance T_star item m); try done.
    by apply (Hm i). }
  split; [done|]. intros HA.
  apply truediv_Ok in Hmajor as [Hz ->].
  apply FloatSign.add_not_negative.
  - by apply FloatSign.div_not_negative.
  - apply FloatSign.sum_not_negative, Forall_fmap.
    eapply Forall_impl; [exact Hall|]. by intros row (_ & _ & _ & ?).
Qed.

(** X5 on [tie_instance]. *)
Lemma X5_costs_not_negative_witness :
  not_negative (r tie_instance) = true ∧
  Forall (λ item, not_negative (a item) = true ∧
                  not_negative (D item) = true ∧
                  not_negative (v item) = true) (items tie_instance) ∧
  ∃ T_star total rows,
    find_optimal_policy tie_instance = Ok (T_star, total, rows) ∧
    Forall (λ row, not_negative (Individual_Cycle row) = true ∧
                   not_negative (Setup_Cost row) = true ∧
                   not_negative (Holding_Cost row) = true ∧
                   not_negative (Total_Item_Cost row) = true) rows ∧
    not_negative total = true.
Proof.
  assert (not_negative (r tie_instance) = true) as Hr by reflexivity.
  assert (Forall (λ item, not_negative (a item) = true ∧
                  not_negative (D item) = true ∧
                  not_negative (v item) = true) (items tie_instance))
    as Hitems by (repeat constructor).
  split; [exact Hr|]. split; [exact Hitems|].
  destruct (find_optimal_policy tie_instance) as [[[T_star total] rows]|e]
    eqn:Hrun; [|vm_compute in Hrun; discriminate Hrun].
  exists T_star, total, rows. split; [reflexivity|].
  destruct (X5_costs_not_negative tie_instance T_star total rows Hr Hitems Hrun)
    as [Hrows Htotal].
  split; [exact Hrows|]. apply Htotal. reflexivity.
Defined.

(** ** Items without demand, and the order of the items *)

Lemma leb_pinf (y : float) : leb pinf y = true → y = pinf.
Proof. by destruct y as [|[]| |[]]. Qed.

(** X6: with two items or more, all with a finite setup cost [a], an item
    whose [D * v] is not greater than zero (zero, negative or NaN) makes the
    solver raise, wherever it stands in the input.  Its key is [+inf]; if
    it is ranked first, every key is [+inf], so in either case the loop
    over the ranks meets a key [+inf] and [round(math.sqrt(...))] raises,
    unless the division before it has raised already. *)
Theorem X6_item_without_demand_raises (instance : JRPInstance) (b : Item) :
  (2 ≤ length (items instance))%nat →
  Forall (λ item, is_finite (a item) = true) (items instance) →
  b ∈ items instance →
  ltb zero (mul (D b) (v b)) = false →
  raises (find_optimal_policy instance).
Proof.
  intros Hlen Hfinite Hb Hrate.
  assert (a_over_Dv b = pinf) as Hkey.
  { unfold a_over_Dv. by rewrite Hrate. }
  assert (StronglySorted (key_le a_over_Dv) (sorted_items instance))
    as Hsorted.
  { apply sorted_StronglySorted.
    eapply Forall_impl; [exact Hfinite|]. apply a_over_Dv_not_nan. }
  rewrite <- (sorted_Permutation a_over_Dv) in Hb.
  apply list_elem_of_lookup_1 in Hb as [i Hi].
  destruct i as [|i].
  - destruct (lookup_lt_is_Some_2 (sorted_items instance) 1) as [x Hx].
    { unfold sorted_items. rewrite length_sorted. lia. }
    apply (infinite_key_raises instance 1 x); [done|lia|].
    apply leb_pinf. rewrite <- Hkey.
    apply (StronglySorted_lookup a_over_Dv _ 0 1 b x Hsorted); [lia|done..].
  - apply (infinite_key_raises instance (S i) b); [done|lia|done].
Qed.

(** X6 on the two-item scenario of the specification. *)
Lemma X6_item_without_demand_raises_witness :
  (2 ≤ length (items zero_demand_instance))%nat ∧
  raises (find_optimal_policy zero_demand_instance).
Proof.
  split; [simpl; lia|].
  apply (X6_item_without_demand_raises zero_demand_instance
           {| id := "B"; a := of_Z 5; D := of_Z 0; v := of_Z 10 |}).
  - simpl. lia.
  - repeat constructor.
  - right. left.
  - reflexivity.
Defined.

(** The solver reads the instance through [A], [r] and the ranked list
    only. *)
Lemma find_optimal_policy_ranked (inst1 inst2 : JRPInstance) :
  A inst1 = A inst2 → r inst1 = r inst2 →
  sorted_items inst1 = sorted_items inst2 →
  find_optimal_policy inst1 = find_optimal_policy inst2.
Proof.
  intros HA Hr Hs.
  unfold find_optimal_policy, calculate_m, calculate_T_star, calculate_num,
    calculate_den, multiplier_body, result_body.
  by rewrite HA, Hr, Hs.
Qed.

(** X7: the order of the items in the input does not matter when no two
    different items have equal keys.  Two instances with the same [A] and
    [r] whose items lists are permutations of each other, with finite setup
    costs, give the same outcome: the same exception, or the same [T_star],
    total and rows in the same order.  (With equal keys the rows of those
    items follow the input order; the name of the instance plays no
    part.) *)
Theorem X7_order_of_items (inst1 inst2 : JRPInstance) :
  A inst1 = A inst2 → r inst1 = r inst2 →
  items inst1 ≡ₚ items inst2 →
  Forall (λ item, is_finite (a item) = true) (items inst1) →
  (∀ x y, x ∈ items inst1 → y ∈ items inst1 →
          eqb (a_over_Dv x) (a_over_Dv y) = true → x = y) →
  find_optimal_policy inst1 = find_optimal_policy inst2.
Proof.
  intros HA Hr Hperm Hfinite Hdistinct.
  apply find_optimal_policy_ranked; [done..|].
  assert (Forall (λ item, is_nan (a_over_Dv item) = false) (items inst1))
    as Hnan.
  { eapply Forall_impl; [exact Hfinite|]. apply a_over_Dv_not_nan. }
  apply StronglySorted_unique_strong with (R := key_le a_over_Dv).
  - intros x y Hx Hy Hxy Hyx. apply Hdistinct.
    + by rewrite <- (sorted_Permutation a_over_Dv).
    + rewrite Hperm. by rewrite <- (sorted_Permutation a_over_Dv).
    + by apply FloatOrder.leb_antisym.
  - by apply sorted_StronglySorted.
  - apply sorted_StronglySorted. by rewrite <- Hperm.
  - unfold sorted_items. by rewrite !sorted_Permutation.
Qed.

(** X7 on [tie_instance] and the same items in the other order. *)
Lemma X7_order_of_items_witness :
  items tie_instance ≡ₚ items reversed_tie_instance ∧
  find_optimal_policy tie_instance = find_optimal_policy reversed_tie_instance.
Proof.
  assert (items tie_instance ≡ₚ items reversed_tie_instance) as Hperm
    by apply Permutation_swap.
  split; [exact Hperm|].
  apply (X7_order_of_items tie_instance reversed_tie_instance).
  - reflexivity.
  - reflexivity.
  - exact Hperm.
  - repeat constructor.
  - intros x y Hx Hy.
    apply elem_of_cons in Hx as [->|Hx];
      [|apply list_elem_of_singleton in Hx as ->];
      (apply elem_of_cons in Hy as [->|Hy];
        [|apply list_elem_of_singleton in Hy as ->]);
      vm_compute; intros H; try reflexivity; discriminate H.
Defined.

(** X8: the ranked list is the only list that meets the contract of
    [sorted].  For finite setup costs, a permutation of the items that is
    in ascending key order and keeps the items of equal key in their input
    order is [sorted_items]. *)
Theorem X8_ranking_unique (instance : JRPInstance) (ranked : list Item) :
  Forall (λ item, is_finite (a item) = true) (items instance) →
  ranked ≡ₚ items instance →
  StronglySorted (key_le a_over_Dv) ranked →
  (∀ k, filter (λ item, eqb (a_over_Dv item) k = true) ranked
        = filter (λ item, eqb (a_over_Dv item) k = true) (items instance)) →
  ranked = sorted_items instance.
Proof.
  intros Hfinite Hperm Hsorted Hstable.
  apply sorted_canonical; [|done..].
  eapply Forall_impl; [exact Hfinite|]. apply a_over_Dv_not_nan.
Qed.

(** X8 on [tie_instance], whose ranked list is its items list reversed. *)
Lemma X8_ranking_unique_witness :
  [{| id := "X"; a := of_Z 1; D := of_Z 1; v := of_Z 1 |};
   {| id := "Y"; a := of_Z 2401; D := of_Z 4; v := of_Z 1 |}]
  = sorted_items tie_instance.
Proof.
  apply (X8_ranking_unique tie_instance).
  - repeat constructor.
  - apply Permutation_swap.
  - apply SSorted_cons; [apply SSorted_cons; constructor|].
    constructor; [vm_compute; reflexivity|constructor].
  - intros k. simpl. rewrite !filter_cons, !filter_nil.
    repeat case_decide; try reflexivity; exfalso;
      match goal with
      | Hx : eqb ?x k = true, Hy : eqb ?y k = true |- _ =>
          let Hc := fresh in
          pose proof (FloatOrder.eqb_eqb_not_ltb _ _ _ Hx Hy) as Hc;
          vm_compute in Hc; discriminate Hc
      end.
Defined.

(** ** The objects a call returns *)

(** The heap a call leaves behind, in full. *)
Lemma represents_run_layout (h : list Heap.object) (l : nat)
    (instance : JRPInstance)
    (run : result (float * float * nat) * list Heap.object) :
  Heap.represents h l instance →
  Heap.find_optimal_policy l h = run →
  match find_optimal_policy instance with
  | Ok (T_star, total, rows) =>
      ∃ bound ms,
        run = (Ok (T_star, total, (length h + 2)%nat),
               Layout.results_layout h bound ms rows)
  | Raise e => ∃ tail, run = (Raise e, h ++ tail)
  end.
Proof.
  intros (items_loc & refs & Hinstance & Hlist & Hitems) Hrun.
  pose proof (Forall2_length _ _ _ Hitems) as Hlen.
  pose proof (HeapRun.find_optimal_policy_run h l items_loc instance
                (zip refs (items instance))) as H.
  assert (h !! items_loc
          = Some (Heap.OList ((λ p : nat * Item, Heap.VRef p.1)
                                <$> zip refs (items instance)))) as Hlist'.
  { rewrite Hlist. do 2 f_equal.
    change (λ p : nat * Item, Heap.VRef p.1)
      with (Heap.VRef ∘ fst (B:=Item)).
    rewrite (list_fmap_compose fst Heap.VRef), fst_zip; [done|lia]. }
  assert (items instance = (zip refs (items instance)).*2) as Hitems'
    by (rewrite snd_zip; [done|lia]).
  assert (Forall (λ p : nat * Item, h !! p.1 = Some (Heap.OItem p.2))
            (zip refs (items instance))) as Hobjects.
  { clear Hlen Hlist Hlist' Hitems' H.
    induction Hitems; simpl; by constructor. }
  specialize (H Hinstance Hlist' Hitems' Hobjects run Hrun).
  destruct (find_optimal_policy instance) as [[[T_star total] rows]|e];
    [|done].
  by exists (zip refs (items instance)).
Qed.

(** Rows that can be read stay readable, and the same, when objects are
    appended to the heap. *)
Lemma read_rows_app (h tail : list Heap.object) (l : nat) (rows : list Row) :
  Heap.read_rows h l = Some rows → Heap.read_rows (h ++ tail) l = Some rows.
Proof.
  unfold Heap.read_rows.
  destruct (h !! l) as [[| |elems|]|] eqn:Hl; try done.
  rewrite (lookup_app_l_Some _ tail _ _ Hl).
  rewrite !mapM_Some. intros Hall.
  eapply Forall2_impl; [exact Hall|].
  intros [n|d] row; [done|].
  destruct (h !! d) as [o|] eqn:Hd; [|done].
  by rewrite (lookup_app_l_Some _ tail _ _ Hd).
Qed.

(** X9: what a call returns is new.  On a heap that holds the instance,
    the [item_results] list handed back and every dictionary in it are
    objects allocated by the call, none of them an object of the caller;
    and a second call on the same instance hands back another list and
    leaves the rows of the first as they were. *)
Theorem X9_results_are_new_objects (h after : list Heap.object) (l : nat)
    (instance : JRPInstance) (T_star total : float) (results : nat) :
  Heap.represents h l instance →
  Heap.find_optimal_policy l h = (Ok (T_star, total, results), after) →
  (length h ≤ results)%nat ∧
  (∃ dicts, after !! results = Some (Heap.OList (Heap.VRef <$> dicts)) ∧
            Forall (λ d, (length h ≤ d)%nat) dicts) ∧
  let second := Heap.find_optimal_policy l after in
  Heap.read_rows second.2 results = Heap.read_rows after results ∧
  ∀ T_star' total' results',
    second.1 = Ok (T_star', total', results') → results' ≠ results.
Proof.
  intros Hh Hrun.
  pose proof (represents_run_layout h l instance _ Hh Hrun) as H.
  destruct (find_optimal_policy instance) as [[[T_star1 total1] rows]|e]
    eqn:Hpure; [|by destruct H as [tail [=]]].
  destruct H as (bound & ms & [= -> -> -> ->]).
  split; [lia|]. split.
  { exists (seq (length h + 3) (length rows)). split.
    - apply HeapRun.results_layout_list.
    - apply Forall_forall. intros d [? _]%elem_of_seq. lia. }
  intros second.
  assert (Heap.represents (Layout.results_layout h bound ms rows) l instance)
    as Hh' by by apply represents_app.
  pose proof (represents_run_layout _ l instance second Hh' eq_refl) as H.
  rewrite Hpure in H. destruct H as (bound' & ms' & ->). simpl. split.
  - rewrite HeapRun.read_rows_results.
    unfold Layout.results_layout at 1, Layout.layout at 1.
    apply read_rows_app, HeapRun.read_rows_results.
  - intros T_star' total' results' [= _ _ <-].
    unfold Layout.results_layout. rewrite HeapRun.length_layout. lia.
Qed.

(** X9 on [tie_heap], where the list returned is the object at location 6. *)
Lemma X9_results_are_new_objects_witness :
  Heap.represents tie_heap 3 tie_instance ∧
  ∃ T_star total after,
    Heap.find_optimal_policy 3 tie_heap = (Ok (T_star, total, 6%nat), after) ∧
    Heap.read_rows (Heap.find_optimal_policy 3 after).2 6
    = Heap.read_rows after 6.
Proof.
  assert (Heap.represents tie_heap 3 tie_instance) as Hh.
  { exists 2%nat, [0; 1]%nat. repeat split; repeat constructor. }
  split; [exact Hh|].
  destruct (Heap.find_optimal_policy 3 tie_heap)
    as [[[[T_star total] l]|e] after] eqn:Hrun;
    [|vm_compute in Hrun; discriminate Hrun].
  assert (l = 6%nat) as ->.
  { vm_compute in Hrun. by injection Hrun as _ _ <- _. }
  exists T_star, total, after. split; [reflexivity|].
  exact (proj1 (proj2 (proj2
           (X9_results_are_new_objects tie_heap after 3 tie_instance
              T_star total 6 Hh Hrun)))).
Defined.

(** ** The instance the page builds *)

Lemma dyn_bind_Fail {X Y} (m : Dyn.res X) (f : X → Dyn.res Y)
    (e : Dyn.error) :
  m ≫= f = Dyn.Fail e ↔
  m = Dyn.Fail e ∨ ∃ x, m = Dyn.Done x ∧ f x = Dyn.Fail e.
Proof.
  destruct m as [x|e']; simpl; split.
  - intros H. right. by exists x.
  - by intros [[=]|(x' & [= ->] & H)].
  - intros [= ->]. by left.
  - by intros [[= ->]|(x' & [=] & _)].
Qed.

Ltac inv_fail :=
  repeat match goal with
    | H : _ ≫= _ = Dyn.Fail _ |- _ =>
        let x := fresh "x" in
        let E := fresh "E" in
        apply dyn_bind_Fail in H; destruct H as [H|(x & E & H)]
    end.

Lemma dyn_comprehension_Done {X Y} (f : X → Dyn.res Y) (l : list X)
    (ys : list Y) :
  Forall2 (λ x y, f x = Dyn.Done y) l ys →
  Dyn.comprehension f l = Dyn.Done ys.
Proof.
  induction 1 as [|x y l ys Hx _ IH]; simpl; [done|].
  by rewrite Hx, IH.
Qed.

Lemma dyn_comprehension_Fail {X Y} (f : X → Dyn.res Y) (l : list X)
    (e : Dyn.error) :
  Dyn.comprehension f l = Dyn.Fail e → ∃ x, x ∈ l ∧ f x = Dyn.Fail e.
Proof.
  induction l as [|x l IH]; simpl; [done|].
  intros [H|(y & Hy & H)]%dyn_bind_Fail.
  - exists x. split; [by left|done].
  - apply dyn_bind_Fail in H as [H|(ys & _ & [=])].
    destruct (IH H) as (x' & Hin & Hx'). exists x'. split; [by right|done].
Qed.

(** A comprehension stops at the first element that fails. *)
Lemma dyn_comprehension_first_Fail {X Y} (f : X → Dyn.res Y)
    (good : list X) (bad : X) (rest : list X) (e : Dyn.error) :
  Forall (λ x, ∃ y, f x = Dyn.Done y) good →
  f bad = Dyn.Fail e →
  Dyn.comprehension f (good ++ bad :: rest) = Dyn.Fail e.
Proof.
  intros Hgood Hbad. induction Hgood as [|x good [y Hx] _ IH]; simpl.
  - by rewrite Hbad.
  - by rewrite Hx, IH.
Qed.

Lemma make_item_describes (e : Dyn.value) (self : Item) :
  describes_item e self →
  ∃ raw, App.make_item e = Dyn.Done raw ∧ typed_item raw = Some self.
Proof.
  intros (fields & -> & Hid & Ha & HD & Hv).
  unfold App.make_item, Dyn.getitem_str. rewrite Hid, Ha, HD, Hv. simpl.
  eexists. split; [done|]. by destruct self.
Qed.

Lemma make_items_describes (elems : list Dyn.value) (selves : list Item) :
  Forall2 describes_item elems selves →
  ∃ raws, Forall2 (λ e raw, App.make_item e = Dyn.Done raw) elems raws ∧
          mapM typed_item raws = Some selves.
Proof.
  induction 1 as [|e self elems selves He _ (raws & IH1 & IH2)].
  - by exists [].
  - apply make_item_describes in He as (raw & Hraw & Hself).
    exists (raw :: raws). split; [by constructor|].
    simpl. by rewrite Hself, IH2.
Qed.

(** X10: a file that describes an instance is loaded as that instance.  If
    the uploaded object has the entries [A] and [r] (floats) and [items], a
    list of objects with the entries [id] (a string) and [a], [D], [v]
    (floats), then the page builds the instance without an exception, with
    the items in the order of the file and, when [instance_name] is
    missing, the name ['Inventory_Batch'].  The order of the entries and
    entries under other keys make no difference. *)
Theorem X10_described_instance_is_built (data : Dyn.value)
    (instance : JRPInstance) :
  describes data instance →
  ∃ raw, App.build_instance data = Dyn.Done raw ∧
         typed_instance raw = Some instance.
Proof.
  intros (fields & elems & -> & Hitems & Hall & HA & Hr & Hname).
  apply make_items_describes in Hall as (raws & Hraws & Htyped).
  unfold App.build_instance, Dyn.getitem_str, Dyn.get.
  rewrite Hitems, HA, Hr, Hname. simpl.
  rewrite (dyn_comprehension_Done _ _ _ Hraws). simpl.
  eexists. split; [done|].
  unfold typed_instance. simpl. rewrite Htyped. simpl. by destruct instance.
Qed.

(** X10 on [tie_data], which has no [instance_name]. *)
Lemma X10_described_instance_is_built_witness :
  describes tie_data
    {| instance_name := "Inventory_Batch"; A := A tie_instance;
       r := r tie_instance; items := items tie_instance |} ∧
  ∃ raw, App.build_instance tie_data = Dyn.Done raw ∧
         typed_instance raw
         = Some {| instance_name := "Inventory_Batch"; A := A tie_instance;
                   r := r tie_instance; items := items tie_instance |}.
Proof.
  assert (describes tie_data
            {| instance_name := "Inventory_Batch"; A := A tie_instance;
               r := r tie_instance; items := items tie_instance |}) as H.
  { eexists _, _. split; [reflexivity|]. split; [reflexivity|].
    split; [|by repeat split].
    repeat constructor; eexists; by repeat split. }
  split; [exact H|].
  exact (X10_described_instance_is_built _ _ H).
Defined.

(** X11: the first item that cannot be built decides the error.  When
    [data['items']] is a list whose first items can be built and whose next
    item cannot, the page fails with what that item raises (a [KeyError]
    naming its first missing key, or a [TypeError] when it is no object):
    the items after it are not looked at, and [A] and [r] are not looked up
    at all. *)
Theorem X11_first_bad_item_decides (fields : list (string * Dyn.value))
    (good : list Dyn.value) (bad : Dyn.value) (rest : list Dyn.value)
    (e : Dyn.error) :
  Dyn.dict_lookup fields "items" = Some (Dyn.List (good ++ bad :: rest)) →
  Forall (λ x, ∃ raw, App.make_item x = Dyn.Done raw) good →
  App.make_item bad = Dyn.Fail e →
  App.build_instance (Dyn.Dict fields) = Dyn.Fail e.
Proof.
  intros Hitems Hgood Hbad. unfold App.build_instance. simpl.
  rewrite Hitems. simpl.
  by rewrite (dyn_comprehension_first_Fail _ _ _ _ _ Hgood Hbad).
Qed.

(** X11 on [missing_D_data]: the error names [D], not [A]. *)
Lemma X11_first_bad_item_decides_witness :
  App.build_instance missing_D_data = Dyn.Fail (Dyn.KeyError (Dyn.Str "D")).
Proof.
  eapply (X11_first_bad_item_decides _ [_] _ []).
  - reflexivity.
  - repeat constructor. eexists. reflexivity.
  - reflexivity.
Defined.

(** X12: the only keys whose absence the page reports are [items], [A],
    [r] and, in an item, [id], [a], [D] and [v].  A [KeyError] raised while
    the instance is built names one of these seven; [instance_name] is
    never reported missing. *)
Theorem X12_missing_keys (data : Dyn.value) (key : Dyn.value) :
  App.build_instance data = Dyn.Fail (Dyn.KeyError key) →
  key ∈ Dyn.Str <$> ["items"; "id"; "a"; "D"; "v"; "A"; "r"].
Proof.
  unfold App.build_instance. intros H.
  assert (∀ x k, Dyn.getitem_str x k = Dyn.Fail (Dyn.KeyError key) →
                 key = Dyn.Str k) as Hget.
  { intros x k. unfold Dyn.getitem_str.
    destruct x; try done. destruct (Dyn.dict_lookup _ _); [done|].
    by intros [= <-]. }
  inv_fail.
  - apply Hget in H as ->. csimpl. repeat first [by left | right].
  - by destruct x.
  - apply dyn_comprehension_Fail in H as (i & _ & H).
    unfold App.make_item in H.
    inv_fail; try (apply Hget in H as ->; csimpl;
                   repeat first [by left | right]).
    done.
  - by destruct data.
  - apply Hget in H as ->. csimpl. repeat first [by left | right].
  - apply Hget in H as ->. csimpl. repeat first [by left | right].
  - done.
Qed.

(** X12 on [missing_D_data]. *)
Lemma X12_missing_keys_witness :
  Dyn.Str "D" ∈ Dyn.Str <$> ["items"; "id"; "a"; "D"; "v"; "A"; "r"].
Proof. apply (X12_missing_keys missing_D_data). reflexivity. Defined.

(** ** The data of the chart of a run *)

Lemma row_series (g : Row → Dyn.value) (key : string) (rows : list Row) :
  (∀ row, Dyn.getitem_str (Chart.row_dict row) key = Dyn.Done (g row)) →
  Dyn.comprehension (λ r, Dyn.getitem_str r key) (Chart.row_dict <$> rows)
  = Dyn.Done (g <$> rows).
Proof.
  intros Hg. apply dyn_comprehension_Done, Forall2_fmap, Forall_Forall2_diag.
  apply Forall_forall. intros row _. apply Hg.
Qed.

Lemma rows_ids (instance : JRPInstance) (ms : list Z) (T_star : float)
    (rows : list Row) :
  Py.for_each (result_body instance ms T_star)
    (Py.enumerate (sorted_items instance)) [] = Ok rows →
  ID <$> rows = id <$> sorted_items instance.
Proof.
  intros [Hlen Hrows]%item_results_Ok.
  apply list_eq_same_length with (length rows);
    [by rewrite length_fmap|by rewrite length_fmap|].
  intros i x y _ Hx Hy. rewrite list_lookup_fmap in Hx.
  rewrite list_lookup_fmap in Hy.
  destruct (rows !! i) as [row|] eqn:Hrow; [|done]. injection Hx as <-.
  destruct (Hrows i row Hrow) as (item & m & Hitem & _ & Hp).
  rewrite Hitem in Hy. injection Hy as <-.
  by destruct Hp as (? & ? & ? & _ & _ & _ & -> & _).
Qed.

(** X13: the chart's data of a run that returned.  On the rows that the
    solver returns, the three list comprehensions at the start of
    [generate_visuals] raise no exception, and the lists they build are
    aligned with the ranked items: the labels are the ids of the items in
    ranked order, and at each position the two heights are the setup cost
    and the holding cost of that row, as rounded to 2 digits. *)
Theorem X13_chart_series (instance : JRPInstance) (T_star total : float)
    (rows : list Row) :
  find_optimal_policy instance = Ok (T_star, total, rows) →
  Chart.read_series (Dyn.List (Chart.row_dict <$> rows))
  = Dyn.Done
      {| Chart.ids := (λ item, Dyn.Str (id item)) <$> sorted_items instance;
         Chart.setups := (λ row, Dyn.Float (Setup_Cost row)) <$> rows;
         Chart.holdings := (λ row, Dyn.Float (Holding_Cost row)) <$> rows |}.
Proof.
  intros (ms & major & _ & _ & Hrows & _)%find_optimal_policy_Ok.
  apply rows_ids in Hrows.
  unfold Chart.read_series. simpl.
  rewrite (row_series (λ row, Dyn.Str (ID row)) "ID") by done. simpl.
  rewrite (row_series (λ row, Dyn.Float (Setup_Cost row)) "Setup Cost ($)")
    by done.
  simpl.
  rewrite (row_series (λ row, Dyn.Float (Holding_Cost row))
             "Holding Cost ($)") by done.
  simpl. do 2 f_equal.
  change (λ row, Dyn.Str (ID row)) with (Dyn.Str ∘ ID).
  change (λ item, Dyn.Str (id item)) with (Dyn.Str ∘ id).
  by rewrite !list_fmap_compose, Hrows.
Qed.

(** X13 on [tie_instance]: the labels are X and Y, in ranked order. *)
Lemma X13_chart_series_witness :
  ∃ T_star total rows chart,
    find_optimal_policy tie_instance = Ok (T_star, total, rows) ∧
    Chart.read_series (Dyn.List (Chart.row_dict <$> rows)) = Dyn.Done chart ∧
    Chart.ids chart = [Dyn.Str "X"; Dyn.Str "Y"] ∧
    length (Chart.setups chart) = 2%nat ∧
    length (Chart.holdings chart) = 2%nat.
Proof.
  destruct (find_optimal_policy tie_instance) as [[[T_star total] rows]|e]
    eqn:Hrun; [|vm_compute in Hrun; discriminate Hrun].
  exists T_star, total, rows. eexists. split; [reflexivity|].
  split; [exact (X13_chart_series tie_instance T_star total rows Hrun)|].
  vm_compute in Hrun. injection Hrun as <- <- <-.
  split; [reflexivity|]. split; reflexivity.
Defined.
